(** * GSTWebRTCApp: the WebRTC session controller of [server/gstwebrtc.py]

    A shallow embedding of the controller class [GSTWebRTCApp] and of the
    text operations its offer handler applies to the SDP, followed by the
    properties of the negotiation, ICE and lifecycle entry points. *)

From Stdlib Require Import String Ascii List NArith ZArith Bool Arith Lia.
Import ListNotations.

(** ** Python text

    A Python [str] is a sequence of Unicode code points.  The literals of the
    source are ASCII; the SDP text comes from the engine and is arbitrary. *)

Definition text := list N.

Definition lit (s : string) : text :=
  map N_of_ascii (list_ascii_of_string s).

(** [a == b] on strings. *)
Fixpoint text_eqb (a b : text) : bool :=
  match a, b with
  | [], [] => true
  | x :: a', y :: b' => N.eqb x y && text_eqb a' b'
  | _, _ => false
  end.

(** [s.startswith(p)]. *)
Fixpoint startswith (p s : text) : bool :=
  match p, s with
  | [], _ => true
  | x :: p', y :: s' => N.eqb x y && startswith p' s'
  | _ :: _, [] => false
  end.

(** [p in s] on strings: [p] occurs at some position of [s]. *)
Fixpoint str_in (p s : text) : bool :=
  startswith p s ||
  match s with
  | [] => false
  | _ :: s' => str_in p s'
  end.

(** ** Substitution of the non-overlapping matches, left to right

    [re.sub(pattern, repl, s)] and [s.replace(old, new)] scan [s] from the
    left; where the pattern matches, the replacement is emitted and the scan
    resumes after the match; elsewhere the character is copied.  The pattern
    is given by [m], the length of its match at the head of a text; neither
    pattern of the source matches the empty string.  [skip] counts the
    characters of the current match still to be passed over. *)

Section Scan.
Variable m : text -> option nat.
Variable repl : text -> text.

Fixpoint scan (skip : nat) (s : text) : text :=
  match s with
  | [] => []
  | c :: s' =>
      match skip with
      | S k => scan k s'
      | O =>
          match m s with
          | Some (S k) => repl (firstn (S k) s) ++ scan k s'
          | _ => c :: scan 0 s'
          end
      end
  end.

Definition sub (s : text) : text := scan 0 s.
End Scan.

(** Match of a literal at the head of the text: the pattern of [str.replace]. *)
Definition match_lit (old s : text) : option nat :=
  if startswith old s then Some (length old) else None.

(** [s.replace(old, new)], [old] not empty. *)
Definition str_replace (old new s : text) : text :=
  sub (match_lit old) (fun _ => new) s.

Section Regex.
(** The class of characters that [\d] matches in a [str] pattern: the
    Unicode decimal digits of the running interpreter.  The table is not
    part of the repository; on ASCII it is [0-9]. *)
Variable decimal : N -> bool.

Fixpoint digit_run (s : text) : nat :=
  match s with
  | c :: s' => if decimal c then S (digit_run s') else 0
  | [] => 0
  end.

(** Match of [<l>\d+] at the head of the text: the literal, then the
    longest run of digits (greedy, and nothing follows it in the pattern). *)
Definition match_lit_digits (l s : text) : option nat :=
  if startswith l s then
    match digit_run (skipn (length l) s) with
    | O => None
    | S k => Some (length l + S k)
    end
  else None.

(** [re.sub(r'(apt=\d+)', r'\1;rtx-time=125', s)] *)
Definition sub_apt (s : text) : text :=
  sub (match_lit_digits (lit "apt=")) (fun g1 => g1 ++ lit ";rtx-time=125") s.

(** [re.sub(r'rtx-time=\d+', r'rtx-time=125', s)] *)
Definition sub_rtx (s : text) : text :=
  sub (match_lit_digits (lit "rtx-time=")) (fun _ => lit "rtx-time=125") s.

(** Lines 217-222 of [__on_offer_created]. *)
Definition rtx_time_step (sdp_text : text) : text :=
  if negb (str_in (lit "rtx-time") sdp_text) then sub_apt sdp_text
  else if negb (str_in (lit "rtx-time=125") sdp_text) then sub_rtx sdp_text
  else sdp_text.
End Regex.

(** Lines 227-232: the body of [if '264' in self.encoder]. *)
Definition h264_step (sdp_text : text) : text :=
  let sdp_text :=
    if negb (str_in (lit "profile-level-id") sdp_text)
    then str_replace (lit "packetization-mode=1")
           (lit "profile-level-id=42e01f;packetization-mode=1") sdp_text
    else sdp_text in
  if negb (str_in (lit "level-asymmetry-allowed") sdp_text)
  then str_replace (lit "packetization-mode=1")
         (lit "level-asymmetry-allowed=1;packetization-mode=1") sdp_text
  else sdp_text.

(** ** The engine and the host, as the controller sees them

    GStreamer objects are known to the controller by identity only. *)

Definition handle := nat.

(** [Gst.State], the two values the controller requests. *)
Inductive gst_state := NULL | PLAYING.

(** [Gst.StateChangeReturn]. *)
Inductive state_change_return :=
| GST_STATE_CHANGE_FAILURE
| GST_STATE_CHANGE_SUCCESS
| GST_STATE_CHANGE_ASYNC
| GST_STATE_CHANGE_NO_PREROLL.

(** Action signals the controller emits on the transport element. *)
Inductive action :=
| add_turn_server (uri : text)
| add_transceiver
| create_offer
| set_local_description (offer : text)
| set_remote_description (answer : text)
| add_ice_candidate (mlineindex : Z) (candidate : text).

(** Calls the controller makes on its collaborators: the engine, and the two
    hooks [on_sdp] and [on_ice] of the host.  Logging is left out, and so are
    the promises but for their [interrupt]. *)
Inductive call :=
| Gst_init
| find_plugin (p : string)
| Pipeline_new (h : handle)
| ElementFactory_make (factory name : string) (h : option handle)
| set_property (h : handle) (prop : string) (value : text)
| connect (h : handle) (signal : string)
| emit (h : handle) (a : action)
| pipeline_add (p e : handle)
| element_link (src dest : handle)
| set_state (h : handle) (s : gst_state)
| unparent (h : handle)
| promise_interrupt
| on_sdp (sdp_type sdp : text)
| on_ice (mlineindex : Z) (candidate : text).

(** What the environment answers where the source looks at the answer; none
    of it is defined in the repository, but for the hooks as [__init__]
    leaves them: two lambdas that log a warning and give [None], which
    cannot be awaited; the host may assign others.  The other calls are
    taken to return. *)
Record Engine := {
  decimal : N -> bool;            (* the characters [\d] matches *)
  has_plugin : string -> bool;    (* [find_plugin(p)] is not [None] *)
  has_factory : string -> bool;   (* [ElementFactory.make] gives an element *)
  playing : state_change_return;  (* result of [set_state(PLAYING)] *)
  links : bool;                   (* result of [Gst.Element.link] *)
  on_sdp_awaitable : bool;        (* [self.on_sdp(...)] gives an awaitable *)
  on_ice_awaitable : bool         (* [self.on_ice(...)] gives an awaitable *)
}.

(** The raise sites of [GSTWebRTCAppError], by their message:
    - [Missing_plugins missing]: ('Missing gstreamer plugins:', missing)
    - [SDP_before_session]: 'Received SDP before session started'
    - [SDP_not_answer]: 'ERROR: sdp type was not answer', answer in quotes
    - [ICE_before_session]: 'Received ICE before session started'
    - [Playing_failed res]: 'Failed to transition pipeline to PLAYING: %s'
    - [Link_failed]: 'Failed to raise webrtcbin -> fakesink' *)
Inductive app_error :=
| Missing_plugins (missing : list string)
| SDP_before_session
| SDP_not_answer
| ICE_before_session
| Playing_failed (res : state_change_return)
| Link_failed.

Inductive exn :=
| GSTWebRTCAppError (e : app_error)
| TypeError
| AttributeError.

(** The error names of the specification, for the raise sites above. *)
Inductive spec_error :=
| ConfigurationError
| ProtocolError
| InvalidStateError
| PipelineStateError
| GraphLinkError.

Definition classify (e : app_error) : spec_error :=
  match e with
  | Missing_plugins _ => ConfigurationError
  | SDP_not_answer => ProtocolError
  | SDP_before_session | ICE_before_session => InvalidStateError
  | Playing_failed _ => PipelineStateError
  | Link_failed => GraphLinkError
  end.

(** The attributes of [self] that the methods below read or write.  The four
    cached state attributes and [rtpqueue] are only touched by the polling
    coroutines. *)
Record GSTWebRTCApp := {
  stun_servers : option (list text);
  turn_servers : option (list text);
  pipeline : option handle;
  webrtcbin : option handle;
  encoder : option text;
  fakesink : option handle
}.

(** [self], and the number of engine objects created so far: every object the
    engine creates is a new one. *)
Record machine := {
  self : GSTWebRTCApp;
  created : nat
}.

(** ** Methods: state, calls made so far, and a result or an exception *)

Inductive outcome (A : Type) :=
| Return (a : A)
| Raise (e : exn).
Arguments Return {A} a.
Arguments Raise {A} e.

Definition M (A : Type) : Type := machine -> outcome A * machine * list call.

Definition ret {A} (a : A) : M A := fun s => (Return a, s, []).

Definition raise {A} (e : exn) : M A := fun s => (Raise e, s, []).

Definition bind {A B} (c : M A) (k : A -> M B) : M B :=
  fun s =>
    match c s with
    | (Return a, s1, l1) =>
        let '(r, s2, l2) := k a s1 in (r, s2, l1 ++ l2)
    | (Raise e, s1, l1) => (Raise e, s1, l1)
    end.

Notation "x <- c ;; k" := (bind c (fun x => k))
  (at level 61, c at next level, right associativity).
Notation "c ;; k" := (bind c (fun _ => k))
  (at level 61, right associativity).

Definition get : M GSTWebRTCApp := fun s => (Return (self s), s, []).

Definition put (a : GSTWebRTCApp) : M unit :=
  fun s => (Return tt, {| self := a; created := created s |}, []).

Definition do (c : call) : M unit := fun s => (Return tt, s, [c]).

Definition new_object : M handle :=
  fun s =>
    (Return (created s), {| self := self s; created := S (created s) |}, []).

(** [obj.method(...)] on an attribute that may be [None]. *)
Definition attr {A} (o : option A) : M A :=
  match o with
  | Some a => ret a
  | None => raise AttributeError
  end.

(** An object handed to the engine, which takes no [None]. *)
Definition arg {A} (o : option A) : M A :=
  match o with
  | Some a => ret a
  | None => raise TypeError
  end.

Definition set_pipeline (v : option handle) : M unit :=
  a <- get ;;
  put {| stun_servers := stun_servers a; turn_servers := turn_servers a;
         pipeline := v; webrtcbin := webrtcbin a; encoder := encoder a;
         fakesink := fakesink a |}.

Definition set_webrtcbin (v : option handle) : M unit :=
  a <- get ;;
  put {| stun_servers := stun_servers a; turn_servers := turn_servers a;
         pipeline := pipeline a; webrtcbin := v; encoder := encoder a;
         fakesink := fakesink a |}.

Definition set_fakesink (v : option handle) : M unit :=
  a <- get ;;
  put {| stun_servers := stun_servers a; turn_servers := turn_servers a;
         pipeline := pipeline a; webrtcbin := webrtcbin a; encoder := encoder a;
         fakesink := v |}.

Fixpoint for_each {A} (l : list A) (body : A -> M unit) : M unit :=
  match l with
  | [] => ret tt
  | x :: l' => body x ;; for_each l' body
  end.

Definition required : list string :=
  ["opus"; "nice"; "webrtc"; "dtls"; "srtp"; "rtp"; "sctp"; "rtpmanager"]%string.

(** The attributes as the first lines of [__init__] set them. *)
Definition new_self (stun turn : option (list text)) (enc : option text)
  : GSTWebRTCApp :=
  {| stun_servers := stun; turn_servers := turn;
     pipeline := None; webrtcbin := None; encoder := enc;
     fakesink := None |}.

(** What the host and the engine ask of the controller. *)
Inductive request :=
| Start_pipeline
| Stop_pipeline
| Set_sdp (sdp_type sdp : text)
| Set_ice (mlineindex : Z) (candidate : text)
| Negotiation_needed (w : handle)
| Offer_created (offer : text)
| Ice_candidate (mlineindex : Z) (candidate : text)
| Pad_added (pad_name : text).

Section Controller.
Variable eng : Engine.

(** [list(filter(lambda p: Gst.Registry.get().find_plugin(p) is None, l))] *)
Fixpoint filter_missing (l : list string) : M (list string) :=
  match l with
  | [] => ret []
  | p :: l' =>
      do (find_plugin p) ;;
      rest <- filter_missing l' ;;
      ret (if has_plugin eng p then rest else p :: rest)
  end.

Definition check_plugins : M unit :=
  missing <- filter_missing required ;;
  match missing with
  | [] => ret tt
  | _ :: _ => raise (GSTWebRTCAppError (Missing_plugins missing))
  end.

(** [GSTWebRTCApp(stun_servers, turn_servers, encoder)]: the new object, or
    the exception that leaves none. *)
Definition init (stun turn : option (list text)) (enc : option text)
  : outcome GSTWebRTCApp * list call :=
  match (do Gst_init ;; check_plugins ;; set_pipeline None)
          {| self := new_self stun turn enc; created := 0 |} with
  | (Return _, s, l) => (Return (self s), l)
  | (Raise e, _, l) => (Raise e, l)
  end.

(** [Gst.ElementFactory.make(factory, name)] *)
Definition make (factory name : string) : M (option handle) :=
  if has_factory eng factory then
    h <- new_object ;;
    do (ElementFactory_make factory name (Some h)) ;;
    ret (Some h)
  else
    do (ElementFactory_make factory name None) ;;
    ret None.

Definition build_webrtcbin_pipeline : M unit :=
  e <- make "webrtcbin" "app" ;;
  set_webrtcbin e ;;
  w <- attr e ;;
  do (set_property w "bundle-policy" (lit "max-compat")) ;;
  do (connect w "on-negotiation-needed") ;;
  do (connect w "on-ice-candidate") ;;
  do (connect w "pad-added") ;;
  a <- get ;;
  match stun_servers a with
  | Some (first :: _) => do (set_property w "stun-server" first)
  | _ => ret tt
  end ;;
  match turn_servers a with
  | Some (t :: l) =>
      for_each (t :: l)
        (fun turn_server => do (emit w (add_turn_server turn_server)))
  | _ => ret tt
  end ;;
  p <- attr (pipeline a) ;;
  do (pipeline_add p w).

Definition build_webcam_video_pipeline : M unit :=
  a <- get ;;
  w <- attr (webrtcbin a) ;;
  do (emit w add_transceiver).

Definition start_pipeline : M unit :=
  p <- new_object ;;
  do (Pipeline_new p) ;;
  set_pipeline (Some p) ;;
  build_webrtcbin_pipeline ;;
  build_webcam_video_pipeline ;;
  do (set_state p PLAYING) ;;
  match playing eng with
  | GST_STATE_CHANGE_SUCCESS => ret tt
  | res => raise (GSTWebRTCAppError (Playing_failed res))
  end.

Definition set_sdp (sdp_type sdp : text) : M unit :=
  a <- get ;;
  match webrtcbin a with
  | None => raise (GSTWebRTCAppError SDP_before_session)
  | Some w =>
      if negb (text_eqb sdp_type (lit "answer"))
      then raise (GSTWebRTCAppError SDP_not_answer)
      else
        do (emit w (set_remote_description sdp)) ;;
        do promise_interrupt
  end.

Definition set_ice (mlineindex : Z) (candidate : text) : M unit :=
  a <- get ;;
  match webrtcbin a with
  | None => raise (GSTWebRTCAppError ICE_before_session)
  | Some w => do (emit w (add_ice_candidate mlineindex candidate))
  end.

(** [loop.run_until_complete(x)], [x] being what a hook of the host
    returned.  A coroutine is run on the new loop, and is taken to run to
    its end; anything that cannot be awaited is refused with a [TypeError]:
    so the [None] that the two lambdas of [__init__] return, after their
    warning. *)
Definition run_until_complete (awaitable : bool) : M unit :=
  if awaitable then ret tt else raise TypeError.

(** ['264' in self.encoder] *)
Definition in_encoder (a : GSTWebRTCApp) : M bool :=
  match encoder a with
  | Some e => ret (str_in (lit "264") e)
  | None => raise TypeError
  end.

(** [__on_offer_created], on the SDP text of the offer in the reply; what
    [on_sdp] gives is awaited after its call. *)
Definition on_offer_created (offer : text) : M unit :=
  a <- get ;;
  w <- attr (webrtcbin a) ;;
  do (emit w (set_local_description offer)) ;;
  do promise_interrupt ;;
  let sdp_text := rtx_time_step (decimal eng) offer in
  h264 <- in_encoder a ;;
  let sdp_text := if h264 then h264_step sdp_text else sdp_text in
  do (on_sdp (lit "offer") sdp_text) ;;
  run_until_complete (on_sdp_awaitable eng).

Definition on_negotiation_needed (w : handle) : M unit :=
  do (emit w create_offer).

(** [__send_ice]: the candidate goes to the hook, and what the hook gives
    is awaited. *)
Definition send_ice (mlineindex : Z) (candidate : text) : M unit :=
  do (on_ice mlineindex candidate) ;;
  run_until_complete (on_ice_awaitable eng).

(** [handle_webcam_stream], on the name of the pad; the sink is kept in a
    local variable, not in [self.fakesink]. *)
Definition handle_webcam_stream (pad_name : text) : M unit :=
  if negb (str_in (lit "sink") pad_name) then
    e <- make "fakesink" "fakesinkbroo" ;;
    a <- get ;;
    p <- attr (pipeline a) ;;
    f <- arg e ;;
    do (pipeline_add p f) ;;
    w <- arg (webrtcbin a) ;;
    do (element_link w f) ;;
    if links eng then ret tt else raise (GSTWebRTCAppError Link_failed)
  else ret tt.

Definition stop_pipeline : M unit :=
  a <- get ;;
  match pipeline a with
  | Some p => do (set_state p NULL) ;; do (unparent p) ;; set_pipeline None
  | None => ret tt
  end ;;
  a <- get ;;
  match webrtcbin a with
  | Some w => do (set_state w NULL) ;; do (unparent w) ;; set_webrtcbin None
  | None => ret tt
  end ;;
  a <- get ;;
  match fakesink a with
  | Some f => do (set_state f NULL) ;; do (unparent f) ;; set_fakesink None
  | None => ret tt
  end.

(** ** The controller driven by its host and by the engine's signals *)

Definition serve (r : request) : M unit :=
  match r with
  | Start_pipeline => start_pipeline
  | Stop_pipeline => stop_pipeline
  | Set_sdp t sdp => set_sdp t sdp
  | Set_ice i c => set_ice i c
  | Negotiation_needed w => on_negotiation_needed w
  | Offer_created offer => on_offer_created offer
  | Ice_candidate i c => send_ice i c
  | Pad_added pad_name => handle_webcam_stream pad_name
  end.

End Controller.

(** A history: requests, each with the engine as it answers while the
    request is served.  An exception ends the request it occurs in; the
    object lives on. *)
Fixpoint run (rs : list (Engine * request)) (s : machine)
  : machine * list call :=
  match rs with
  | [] => (s, [])
  | (eng, r) :: rs' =>
      let '(_, s1, l1) := serve eng r s in
      let '(s2, l2) := run rs' s1 in
      (s2, l1 ++ l2)
  end.

(** The history of some requests served by one engine. *)
Definition under (eng : Engine) (rs : list request) : list (Engine * request) :=
  map (pair eng) rs.

(** ** Vocabulary of the properties *)

(** Number of positions of [s] at which [p] occurs. *)
Fixpoint occurrences (p s : text) : nat :=
  (if startswith p s then 1 else 0) +
  match s with
  | [] => 0
  | _ :: s' => occurrences p s'
  end.

(** An occurrence of [<l><n>] starts here: the literal, then a digit. *)
Definition token_at (decimal : N -> bool) (l s : text) : bool :=
  startswith l s &&
  match skipn (length l) s with
  | c :: _ => decimal c
  | [] => false
  end.

(** Number of occurrences of [<l><n>] in [s], counted by where they start. *)
Fixpoint tokens (decimal : N -> bool) (l s : text) : nat :=
  (if token_at decimal l s then 1 else 0) +
  match s with
  | [] => 0
  | _ :: s' => tokens decimal l s'
  end.

(** A text cut at its tokens: what precedes the first one, then for every
    token its digits and the text up to the next token; [f] writes a token. *)
Definition weave (f : text -> text) (before : text) (toks : list (text * text))
  : text :=
  before ++ flat_map (fun t => f (fst t) ++ snd t) toks.

(** The digits of a token are all there are: a digit at least, digits only,
    and the text that follows, up to the next token, starts with no digit. *)
Definition whole_number (decimal : N -> bool) (t : text * text) : Prop :=
  fst t <> [] /\ forallb decimal (fst t) = true /\ digit_run decimal (snd t) = 0.

(** The non-empty suffixes of a text. *)
Fixpoint tails (s : text) : list text :=
  match s with
  | [] => []
  | _ :: s' => s :: tails s'
  end.

(** Two texts differ at a position they both have. *)
Fixpoint clash (a b : text) : bool :=
  match a, b with
  | x :: a', y :: b' => negb (N.eqb x y) || clash a' b'
  | _, _ => false
  end.

(** No occurrence of [p] can share a character with an occurrence of [w]:
    [p] can neither run into the start of [w] nor start inside [w]. *)
Definition apart (p w : text) : bool :=
  forallb (fun q => clash q w) (tails p) &&
  forallb (fun w' => clash p w') (tails w).

(** A text no proper suffix of which could continue as the text itself. *)
Definition unbordered (p : text) : bool :=
  forallb (fun q => clash p q) (tl (tails p)).

(** No occurrence of [p] runs into the start of an occurrence of [w], and
    none starts inside one, whatever the text around them. *)
Definition never_reaches (p w : text) : Prop :=
  forall q y, In q (tails p) -> startswith q (w ++ y) = false.

Definition never_starts_in (p w : text) : Prop :=
  forall w' y, In w' (tails w) -> startswith p (w' ++ y) = false.

Definition avoids (p w : text) : Prop := never_reaches p w /\ never_starts_in p w.

(** On ASCII, [\d] matches the ten digits [0-9] and nothing else. *)
Definition ascii_digit (c : N) : bool := (48 <=? c)%N && (c <=? 57)%N.

Definition agrees_on_ascii (decimal : N -> bool) : Prop :=
  forall c, (c < 128)%N -> decimal c = ascii_digit c.

(** The texts of the H.264 step. *)
Definition packetization : text := lit "packetization-mode=1".
Definition profile_level_id : text := lit "profile-level-id".
Definition level_asymmetry : text := lit "level-asymmetry-allowed".
Definition profile_mode : text :=
  lit "profile-level-id=42e01f;packetization-mode=1".
Definition profile_asymmetry_mode : text :=
  lit "profile-level-id=42e01f;level-asymmetry-allowed=1;packetization-mode=1".

(** The calls that release [o], when it is there. *)
Definition teardown (o : option handle) : list call :=
  match o with
  | Some h => [set_state h NULL; unparent h]
  | None => []
  end.

(** [h2] is released at some point after the first release of [h1]. *)
Definition is_unparent (h : handle) (c : call) : bool :=
  match c with
  | unparent h' => Nat.eqb h h'
  | _ => false
  end.

Fixpoint released_before (h1 h2 : handle) (l : list call) : bool :=
  match l with
  | [] => false
  | c :: l' =>
      if is_unparent h1 c then existsb (is_unparent h2) l'
      else released_before h1 h2 l'
  end.

(** [self] with its three handles dropped. *)
Definition stopped (a : GSTWebRTCApp) : GSTWebRTCApp :=
  {| stun_servers := stun_servers a; turn_servers := turn_servers a;
     pipeline := None; webrtcbin := None; encoder := encoder a;
     fakesink := None |}.

(** [self] with a pipeline and a transport element, and the calls by which
    [build_webrtcbin_pipeline] sets the relays up on the element [w]. *)
Definition with_handles (a : GSTWebRTCApp) (p w : option handle)
  : GSTWebRTCApp :=
  {| stun_servers := stun_servers a; turn_servers := turn_servers a;
     pipeline := p; webrtcbin := w; encoder := encoder a;
     fakesink := fakesink a |}.

Definition stun_calls (w : handle) (a : GSTWebRTCApp) : list call :=
  match stun_servers a with
  | Some (first :: _) => [set_property w "stun-server" first]
  | _ => []
  end.

Definition turn_calls (w : handle) (a : GSTWebRTCApp) : list call :=
  match turn_servers a with
  | Some l => map (fun t => emit w (add_turn_server t)) l
  | None => []
  end.

(** The calls of the negotiation. *)
Definition is_local_description (c : call) : bool :=
  match c with
  | emit _ (set_local_description _) => true
  | _ => false
  end.

Definition is_remote_description (c : call) : bool :=
  match c with
  | emit _ (set_remote_description _) => true
  | _ => false
  end.

Definition is_on_sdp (c : call) : bool :=
  match c with
  | on_sdp _ _ => true
  | _ => false
  end.

(** The calls that build and start a pipeline. *)
Definition setup_call (c : call) : bool :=
  match c with
  | Pipeline_new _ | ElementFactory_make _ _ _ | set_property _ _ _
  | connect _ _ | pipeline_add _ _ | element_link _ _ | set_state _ PLAYING
  | emit _ (add_turn_server _) | emit _ add_transceiver => true
  | _ => false
  end.

Definition is_start (er : Engine * request) : bool :=
  match snd er with
  | Start_pipeline => true
  | _ => false
  end.

(** The machine a new controller starts from. *)
Definition boot (a : GSTWebRTCApp) : machine := {| self := a; created := 0 |}.

(** The names that [check_plugins] reports. *)
Definition missing_plugins (eng : Engine) : list string :=
  filter (fun p => negb (has_plugin eng p)) required.

(** ** Engines, controllers and offers of the examples *)

(** Everything is there and the pipeline starts; the hooks are those of
    [__init__]. *)
Definition engine_ok : Engine :=
  {| decimal := ascii_digit; has_plugin := fun _ => true;
     has_factory := fun _ => true; playing := GST_STATE_CHANGE_SUCCESS;
     links := true; on_sdp_awaitable := false; on_ice_awaitable := false |}.

(** The same, the host having assigned coroutine functions to both hooks. *)
Definition engine_hosted : Engine :=
  {| decimal := ascii_digit; has_plugin := fun _ => true;
     has_factory := fun _ => true; playing := GST_STATE_CHANGE_SUCCESS;
     links := true; on_sdp_awaitable := true; on_ice_awaitable := true |}.

(** The [nice] plugin is not installed. *)
Definition engine_without_nice : Engine :=
  {| decimal := ascii_digit;
     has_plugin := fun p => negb (String.eqb p "nice");
     has_factory := fun _ => true; playing := GST_STATE_CHANGE_SUCCESS;
     links := true; on_sdp_awaitable := false; on_ice_awaitable := false |}.

Definition x264_app : GSTWebRTCApp := new_self None None (Some (lit "x264enc")).

Definition default_app : GSTWebRTCApp := new_self None None None.

(** The x264 controller, started. *)
Definition x264_started : machine :=
  fst (run (under engine_ok [Start_pipeline]) (boot x264_app)).

Definition vp8_app : GSTWebRTCApp := new_self None None (Some (lit "vp8enc")).

(** The vp8 controller, started. *)
Definition vp8_started : machine :=
  fst (run (under engine_ok [Start_pipeline]) (boot vp8_app)).

(** The default controller, started. *)
Definition default_started : machine :=
  fst (run (under engine_ok [Start_pipeline]) (boot default_app)).

(** The host answers right after the start; the host stops and answers
    without a start. *)
Definition early_answer : list (Engine * request) :=
  under engine_ok [Start_pipeline; Set_sdp (lit "answer") (lit "v=0")].

Definition never_started : list (Engine * request) :=
  under engine_ok [Stop_pipeline; Set_sdp (lit "answer") (lit "v=0")].

Definition offer_apt : text := lit "a=fmtp:97 apt=96".

Definition offer_rtx_3000 : text := lit "a=fmtp:97 apt=96;rtx-time=3000".

Definition offer_mixed : text :=
  lit "a=fmtp:97 apt=96;rtx-time=125 a=fmtp:99 apt=98;rtx-time=3000".

Definition offer_h264 : text := lit "a=fmtp:96 packetization-mode=1".

Definition offer_h264_sent : text :=
  lit "a=fmtp:96 profile-level-id=42e01f;level-asymmetry-allowed=1;packetization-mode=1".

(** ** The monitors

    [bus_call], [handle_bus_calls] and [check_property].  The two coroutines
    loop for ever, sleeping between their rounds; a round runs without
    interruption, and between two rounds anyone may have changed [self].  A
    coroutine is run on the rounds it gets: [self] as it is then, and what
    the engine has to say then. *)

(** [value_nick] of a [Gst.State]. *)
Inductive state_nick :=
| nick_void_pending
| nick_null
| nick_ready
| nick_paused
| nick_playing.

Definition state_nick_eqb (a b : state_nick) : bool :=
  match a, b with
  | nick_void_pending, nick_void_pending
  | nick_null, nick_null
  | nick_ready, nick_ready
  | nick_paused, nick_paused
  | nick_playing, nick_playing => true
  | _, _ => false
  end.

(** A bus message, by its type; of a state change, whether its source is a
    [Gst.Pipeline], and the old and new state.  What is only logged is left
    out. *)
Inductive message :=
| EOS
| ERROR
| STATE_CHANGED (from_pipeline : bool) (old_state new_state : state_nick)
| LATENCY
| other_message.

(** Calls of the monitors on the engine. *)
Inductive monitor_call :=
| get_bus (p : handle)
| recalculate_latency (p : handle)
| get_property (w : handle) (prop : string)
| get_state (f : handle).

(** [bus_call]: whether the loop is to go on, and the calls made.  An
    exception of [recalculate_latency] is caught and logged. *)
Definition bus_call (a : GSTWebRTCApp) (msg : message)
  : bool * list monitor_call :=
  match msg with
  | EOS => (false, [])
  | ERROR => (false, [])
  | STATE_CHANGED from_pipeline old_state new_state =>
      if from_pipeline then
        if state_nick_eqb old_state nick_paused
           && state_nick_eqb new_state nick_ready
        then (false, [])
        else (true, [])
      else (true, [])
  | LATENCY =>
      match pipeline a with
      | Some p => (true, [recalculate_latency p])
      | None => (true, [])
      end
  | other_message => (true, [])
  end.

(** [while bus.have_pending(): ...], on the messages pending. *)
Fixpoint drain (a : GSTWebRTCApp) (running : bool) (pending : list message)
  : bool * list monitor_call :=
  match pending with
  | [] => (running, [])
  | msg :: rest =>
      let '(go_on, l1) := bus_call a msg in
      let '(r, l2) := drain a (if go_on then running else false) rest in
      (r, l1 ++ l2)
  end.

(** [handle_bus_calls], from the bus it holds, on the rounds it gets: the
    number of rounds after which it returns, if it does, and the calls
    made. *)
Fixpoint handle_bus_calls (bus : option handle)
    (rounds : list (GSTWebRTCApp * list message))
  : option nat * list monitor_call :=
  match rounds with
  | [] => (None, [])
  | (a, pending) :: later =>
      let '(bus, l0) :=
        match pipeline a with
        | Some p => (Some p, [get_bus p])
        | None => (bus, [])
        end in
      let '(running, l1) :=
        match bus with
        | Some _ => drain a true pending
        | None => (true, [])
        end in
      if running then
        let '(r, l2) := handle_bus_calls bus later in
        (option_map S r, l0 ++ l1 ++ l2)
      else (Some 1, l0 ++ l1)
  end.

(** The attributes [check_property] caches, [None] at first. *)
Record cache := {
  peer_connection_state : option string;
  ice_connection_state : option string;
  fakesink_state : option state_nick
}.

(** What the engine reports in a round: the [value_name] of the two
    connection states, and the state of the sink. *)
Record readings := {
  ice_now : string;
  peer_now : string;
  sink_now : state_nick
}.

(** The log of [check_property], by what a line is about; a change of the
    sink is logged in three lines. *)
Inductive log_line :=
| log_ice (value_name : string)
| log_peer (value_name : string)
| log_sink (state : state_nick).

(** [x != cached], the cached value being [None] or a value. *)
Definition differs {A} (eqb : A -> A -> bool) (x : A) (cached : option A)
  : bool :=
  match cached with
  | Some y => negb (eqb x y)
  | None => true
  end.

(** One round of [check_property]. *)
Definition check_property (a : GSTWebRTCApp) (now : readings) (c : cache)
  : cache * list monitor_call * list log_line :=
  match pipeline a, webrtcbin a with
  | Some _, Some w =>
      let '(ice, log1) :=
        if differs String.eqb (ice_now now) (ice_connection_state c)
        then (Some (ice_now now), [log_ice (ice_now now)])
        else (ice_connection_state c, []) in
      let '(peer, log2) :=
        if differs String.eqb (peer_now now) (peer_connection_state c)
        then (Some (peer_now now), [log_peer (peer_now now)])
        else (peer_connection_state c, []) in
      let '(sink, l3, log3) :=
        match fakesink a with
        | Some f =>
            if differs state_nick_eqb (sink_now now) (fakesink_state c)
            then (Some (sink_now now), [get_state f], [log_sink (sink_now now)])
            else (fakesink_state c, [get_state f], [])
        | None => (fakesink_state c, [], [])
        end in
      ({| peer_connection_state := peer; ice_connection_state := ice;
          fakesink_state := sink |},
       [get_property w "ice-connection-state";
        get_property w "connection-state"] ++ l3,
       log1 ++ log2 ++ log3)
  | _, _ => (c, [], [])
  end.

(** [check_property] on the rounds it gets. *)
Fixpoint check_property_rounds (rounds : list (GSTWebRTCApp * readings))
    (c : cache) : cache * list log_line :=
  match rounds with
  | [] => (c, [])
  | (a, now) :: later =>
      let '(c1, _, log1) := check_property a now c in
      let '(c2, log2) := check_property_rounds later c1 in
      (c2, log1 ++ log2)
  end.

(** ** More vocabulary *)

(** A message that ends the bus loop. *)
Definition ends_loop (msg : message) : bool :=
  match msg with
  | EOS | ERROR | STATE_CHANGED true nick_paused nick_ready => true
  | _ => false
  end.

Definition is_latency (msg : message) : bool :=
  match msg with
  | LATENCY => true
  | _ => false
  end.

Definition is_recalculate (c : monitor_call) : bool :=
  match c with
  | recalculate_latency _ => true
  | _ => false
  end.

(** A round of the bus loop in which no message ends it, and a round in
    which [self] holds no pipeline. *)
Definition quiet (round : GSTWebRTCApp * list message) : bool :=
  negb (existsb ends_loop (snd round)).

Definition no_pipeline (round : GSTWebRTCApp * list message) : bool :=
  match pipeline (fst round) with
  | None => true
  | Some _ => false
  end.

(** A sink is polled, and a line about the sink. *)
Definition is_get_state (c : monitor_call) : bool :=
  match c with
  | get_state _ => true
  | _ => false
  end.

Definition is_log_sink (l : log_line) : bool :=
  match l with
  | log_sink _ => true
  | _ => false
  end.

(** The first cache, and readings of the examples. *)
Definition cache_init : cache :=
  {| peer_connection_state := None; ice_connection_state := None;
     fakesink_state := None |}.

Definition readings_new : readings :=
  {| ice_now := "GST_WEBRTC_ICE_CONNECTION_STATE_NEW";
     peer_now := "GST_WEBRTC_PEER_CONNECTION_STATE_NEW";
     sink_now := nick_null |}.

(** The candidates the host was given, and the candidates found. *)
Definition on_ice_calls (l : list call) : list (Z * text) :=
  flat_map (fun c => match c with
                     | on_ice i cand => [(i, cand)]
                     | _ => []
                     end) l.

Definition candidates_found (rs : list (Engine * request)) : list (Z * text) :=
  flat_map (fun er => match snd er with
                      | Ice_candidate i cand => [(i, cand)]
                      | _ => []
                      end) rs.

(** The elements asked for an offer, and the elements that signalled. *)
Definition create_offer_calls (l : list call) : list handle :=
  flat_map (fun c => match c with
                     | emit w create_offer => [w]
                     | _ => []
                     end) l.

Definition negotiations_needed (rs : list (Engine * request)) : list handle :=
  flat_map (fun er => match snd er with
                      | Negotiation_needed w => [w]
                      | _ => []
                      end) rs.

Definition is_offer_created (er : Engine * request) : bool :=
  match snd er with
  | Offer_created _ => true
  | _ => false
  end.

(** The handles [self] holds are objects the engine made, the transport
    element right after its pipeline; and there is no sink. *)
Definition well_formed (s : machine) : Prop :=
  fakesink (self s) = None /\
  (forall p, pipeline (self s) = Some p -> p < created s) /\
  (forall w, webrtcbin (self s) = Some w ->
     w < created s /\ pipeline (self s) = Some (pred w) /\ w <> 0).

(** A call on the object [h]. *)
Definition call_on (h : handle) (c : call) : bool :=
  match c with
  | Pipeline_new h' | set_property h' _ _ | connect h' _ | emit h' _
  | set_state h' _ | unparent h' => Nat.eqb h h'
  | ElementFactory_make _ _ (Some h') => Nat.eqb h h'
  | pipeline_add p e | element_link p e => Nat.eqb h p || Nat.eqb h e
  | _ => false
  end.

(** The sink pad handler's calls on a source pad, the sink being [f]. *)
Definition sink_calls (a : GSTWebRTCApp) (f : handle) : list call :=
  ElementFactory_make "fakesink" "fakesinkbroo" (Some f) ::
  match pipeline a with
  | None => []
  | Some p =>
      pipeline_add p f ::
      match webrtcbin a with
      | None => []
      | Some w => [element_link w f]
      end
  end.

(** An engine that does not bring the pipeline to [PLAYING]. *)
Definition engine_async : Engine :=
  {| decimal := ascii_digit; has_plugin := fun _ => true;
     has_factory := fun _ => true; playing := GST_STATE_CHANGE_ASYNC;
     links := true; on_sdp_awaitable := false; on_ice_awaitable := false |}.

Definition offer_has_profile : text :=
  lit "a=fmtp:96 profile-level-id=42e01f;packetization-mode=1".

Definition offer_plain : text := lit "v=0 m=video 9 UDP/TLS/RTP/SAVPF 96".

Definition asymmetry_mode : text :=
  lit "level-asymmetry-allowed=1;packetization-mode=1".

(** The relays the transport element was given. *)
Definition stun_servers_set (l : list call) : list text :=
  flat_map (fun c => match c with
                     | set_property _ "stun-server" uri => [uri]
                     | _ => []
                     end) l.

Definition turn_servers_added (l : list call) : list text :=
  flat_map (fun c => match c with
                     | emit _ (add_turn_server uri) => [uri]
                     | _ => []
                     end) l.

(** ** Texts *)

Lemma startswith_nil_r p : startswith p [] = true -> p = [].
Proof. destruct p; [reflexivity | discriminate]. Qed.

Lemma startswith_app p s : startswith p (p ++ s) = true.
Proof.
  induction p as [|x p IH]; [reflexivity|].
  simpl. now rewrite N.eqb_refl.
Qed.

Lemma startswith_split p s :
  startswith p s = true -> s = p ++ skipn (length p) s.
Proof.
  revert s; induction p as [|x p IH]; intros [|y s] H; simpl in *;
    try reflexivity; try discriminate.
  apply andb_true_iff in H as [Hxy H].
  apply N.eqb_eq in Hxy; subst y.
  f_equal. now apply IH.
Qed.

Lemma startswith_app_l p z s :
  startswith (p ++ z) s = true -> startswith p s = true.
Proof.
  revert s; induction p as [|x p IH]; intros [|y s] H; simpl in *;
    try reflexivity; try discriminate.
  apply andb_true_iff in H as [Hxy H].
  rewrite Hxy. simpl. now apply IH.
Qed.

Lemma startswith_trans p q s :
  startswith p q = true -> startswith q s = true -> startswith p s = true.
Proof.
  intros Hpq Hqs. apply startswith_split in Hpq. rewrite Hpq in Hqs.
  now apply startswith_app_l in Hqs.
Qed.

Lemma clash_startswith p w y :
  clash p w = true -> startswith p (w ++ y) = false.
Proof.
  revert w; induction p as [|x p IH]; intros [|c w] H; simpl in *;
    try discriminate.
  destruct (N.eqb x c); simpl in *; [now apply IH | reflexivity].
Qed.

Lemma tails_self p : p <> [] -> In p (tails p).
Proof. destruct p; [congruence | now left]. Qed.

Lemma tails_app a b w :
  In w (tails (a ++ b)) ->
  (exists a', In a' (tails a) /\ w = a' ++ b) \/ In w (tails b).
Proof.
  induction a as [|x a IH]; simpl; intros H; [now right|].
  destruct H as [<- | H].
  - left. exists (x :: a). split; [now left | reflexivity].
  - destruct (IH H) as [(a' & Ha' & ->) | Hb]; [left | now right].
    exists a'. split; [now right | reflexivity].
Qed.

Lemma tails_tail x q p : In (x :: q) (tails p) -> q = [] \/ In q (tails p).
Proof.
  induction p as [|y p IH]; simpl; [tauto|].
  intros [H | H].
  - injection H as -> ->. destruct q; [now left | right; right; now left].
  - destruct (IH H) as [-> | Hq]; [now left | right; now right].
Qed.

Lemma str_in_occurrences p s :
  str_in p s = false <-> occurrences p s = 0.
Proof.
  induction s as [|c s IH]; simpl.
  - destruct (startswith p []); simpl; split; intros;
      (discriminate || reflexivity || lia).
  - destruct (startswith p (c :: s)); simpl.
    + split; intros; (discriminate || lia).
    + exact IH.
Qed.

Lemma str_in_true_occurrences p s :
  str_in p s = true <-> occurrences p s <> 0.
Proof.
  rewrite <- str_in_occurrences. destruct (str_in p s); split; congruence.
Qed.

Lemma str_in_infix a p b : str_in p (a ++ p ++ b) = true.
Proof.
  induction a as [|x a IH]; simpl.
  - destruct (p ++ b) eqn:E; simpl.
    + destruct p; [reflexivity | discriminate].
    + rewrite <- E, startswith_app. reflexivity.
  - rewrite IH. apply orb_true_r.
Qed.

(** ** The scan *)

Section ScanFacts.
Variable m : text -> option nat.
Variable repl : text -> text.

Lemma scan_skipn k s : scan m repl k s = sub m repl (skipn k s).
Proof.
  revert k; induction s as [|c s IH]; intros [|k]; try reflexivity.
  simpl. apply IH.
Qed.

(** The scan, as the substitution reads: replace the match and go on after
    it, or copy a character. *)
Lemma sub_cons c s :
  sub m repl (c :: s) =
  match m (c :: s) with
  | Some (S k) =>
      repl (firstn (S k) (c :: s)) ++ sub m repl (skipn (S k) (c :: s))
  | _ => c :: sub m repl s
  end.
Proof.
  unfold sub at 1. simpl.
  destruct (m (c :: s)) as [[|k]|]; try reflexivity.
  now rewrite scan_skipn.
Qed.

(** Where no match starts, the text is copied. *)
Lemma sub_copy a y :
  (forall a', In a' (tails a) -> m (a' ++ y) = None) ->
  sub m repl (a ++ y) = a ++ sub m repl y.
Proof.
  induction a as [|x a IH]; intros H; [reflexivity|].
  change ((x :: a) ++ y) with (x :: a ++ y).
  rewrite sub_cons.
  change (x :: a ++ y) with ((x :: a) ++ y).
  rewrite (H (x :: a)) by now left.
  simpl. f_equal. apply IH. intros a' Ha'. apply H. now right.
Qed.

(** When every replacement begins with [c0], a text without [c0] begins the
    result only if it begins the text. *)
Lemma sub_head c0 q s :
  (forall s0 k, m s0 = Some (S k) ->
     exists r, repl (firstn (S k) s0) = c0 :: r) ->
  ~ In c0 q ->
  startswith q (sub m repl s) = true -> startswith q s = true.
Proof.
  intros Hrepl. revert q; induction s as [|c s IH]; intros q Hq H.
  - exact H.
  - destruct q as [|x q]; [reflexivity|].
    rewrite sub_cons in H.
    assert (Hcopy : startswith (x :: q) (c :: sub m repl s) = true ->
                    startswith (x :: q) (c :: s) = true).
    { simpl. intros G. apply andb_true_iff in G as [-> G]. simpl.
      apply IH; [|assumption]. intros Hin. apply Hq. now right. }
    destruct (m (c :: s)) as [[|k]|] eqn:E; try (now apply Hcopy).
    destruct (Hrepl _ _ E) as [r Hr]. rewrite Hr in H. simpl in H.
    apply andb_true_iff in H as [H _]. apply N.eqb_eq in H.
    exfalso. apply Hq. now left.
Qed.
End ScanFacts.

(** Induction on texts along the scan: a text is empty, or is a character
    followed by a text, or is some characters followed by a shorter text. *)
Lemma text_length_ind (P : text -> Prop) :
  (forall s, (forall s', length s' < length s -> P s') -> P s) ->
  forall s, P s.
Proof.
  intros H s.
  assert (G : forall n s, length s < n -> P s).
  { induction n as [|n IH]; intros s' Hs'; [lia|].
    apply H. intros s'' Hs''. apply IH. lia. }
  apply (G (S (length s))). lia.
Qed.

Section Avoid.
(** [p] is a text no occurrence of which overlaps a match or a replacement. *)
Variable p : text.

Lemma apart_avoids w : apart p w = true -> avoids p w.
Proof.
  unfold apart. intros H. apply andb_true_iff in H as [H1 H2].
  rewrite forallb_forall in H1, H2.
  split; intros q y Hq; apply clash_startswith; auto.
Qed.

Lemma never_starts_in_app a b :
  never_starts_in p a -> never_starts_in p b -> never_starts_in p (a ++ b).
Proof.
  intros Ha Hb w y Hw.
  destruct (tails_app _ _ _ Hw) as [(a' & Ha' & ->) | Hw'].
  - rewrite <- app_assoc. now apply Ha.
  - now apply Hb.
Qed.

Lemma avoids_app a b : avoids p a -> never_starts_in p b -> avoids p (a ++ b).
Proof.
  intros [Ha1 Ha2] Hb. split.
  - intros q y Hq. rewrite <- app_assoc. now apply Ha1.
  - now apply never_starts_in_app.
Qed.

Lemma occurrences_skip w y :
  never_starts_in p w -> occurrences p (w ++ y) = occurrences p y.
Proof.
  induction w as [|c w IH]; intros H; [reflexivity|].
  change ((c :: w) ++ y) with (c :: w ++ y).
  change (occurrences p (c :: w ++ y))
    with ((if startswith p ((c :: w) ++ y) then 1 else 0) + occurrences p (w ++ y)).
  rewrite (H (c :: w) y) by now left.
  rewrite IH; [reflexivity|].
  intros w' y' Hw'. apply H. now right.
Qed.

Variable m : text -> option nat.
Variable repl : text -> text.

Hypothesis match_avoided :
  forall s k, m s = Some (S k) ->
    S k <= length s /\
    avoids p (firstn (S k) s) /\ avoids p (repl (firstn (S k) s)).

(** The substitution neither makes nor breaks a prefix that is a suffix of
    [p], so it neither makes nor breaks an occurrence of [p]. *)
Lemma sub_keeps_prefixes s :
  forall q, In q (tails p) ->
    startswith q (sub m repl s) = startswith q s.
Proof.
  induction s as [s IH] using text_length_ind.
  intros q Hq. destruct s as [|c s]; [reflexivity|].
  assert (Hcopy : startswith q (c :: sub m repl s) = startswith q (c :: s)).
  { destruct q as [|x q]; [reflexivity|]. simpl.
    destruct (tails_tail _ _ _ Hq) as [-> | Hq'].
    - now destruct s; destruct (sub m repl _).
    - now rewrite IH by (simpl; auto). }
  rewrite sub_cons.
  destruct (m (c :: s)) as [[|k]|] eqn:E; try exact Hcopy.
  destruct (match_avoided _ _ E) as (Hk & [Hw _] & [Hr _]).
  rewrite Hr by assumption.
  rewrite <- (firstn_skipn (S k) (c :: s)) at 1.
  now rewrite Hw.
Qed.

Lemma sub_keeps_occurrences s :
  p <> [] -> occurrences p (sub m repl s) = occurrences p s.
Proof.
  intros Hp.
  induction s as [s IH] using text_length_ind.
  destruct s as [|c s]; [reflexivity|].
  pose proof (sub_keeps_prefixes (c :: s) p (tails_self p Hp)) as Hhead.
  rewrite sub_cons in *.
  assert (Hcopy : startswith p (c :: sub m repl s) = startswith p (c :: s) ->
                  occurrences p (c :: sub m repl s) = occurrences p (c :: s)).
  { intros H.
    change (occurrences p (c :: sub m repl s))
      with ((if startswith p (c :: sub m repl s) then 1 else 0)
            + occurrences p (sub m repl s)).
    rewrite H, IH by (simpl; lia). reflexivity. }
  destruct (m (c :: s)) as [[|k]|] eqn:E; try (now apply Hcopy).
  destruct (match_avoided _ _ E) as (Hk & [_ Hw] & [_ Hr]).
  rewrite occurrences_skip by assumption.
  rewrite <- (firstn_skipn (S k) (c :: s)) at 2.
  rewrite occurrences_skip by assumption.
  apply IH. rewrite length_skipn. simpl in *. lia.
Qed.
End Avoid.

(** ** The pattern [<l>\d+] *)

Section LitDigits.
Variable decimal : N -> bool.
Variable l : text.

Lemma digit_run_split s :
  exists ds rest,
    s = ds ++ rest /\ length ds = digit_run decimal s /\
    forallb decimal ds = true /\ digit_run decimal rest = 0.
Proof.
  induction s as [|c s IH]; simpl.
  - now exists [], [].
  - destruct (decimal c) eqn:E.
    + destruct IH as (ds & rest & -> & Hlen & Hds & Hrest).
      exists (c :: ds), rest. simpl. now rewrite E, Hlen.
    + exists [], (c :: s). simpl. now rewrite E.
Qed.

(** A match is the literal and a whole number; what the scan replaces is
    the two, and it goes on with what follows. *)
Lemma match_lit_digits_inv s n :
  match_lit_digits decimal l s = Some n ->
  exists ds rest,
    s = l ++ ds ++ rest /\ whole_number decimal (ds, rest) /\
    n = length l + length ds /\
    firstn n s = l ++ ds /\ skipn n s = rest.
Proof.
  unfold match_lit_digits. intros H.
  destruct (startswith l s) eqn:Hl; [|discriminate].
  apply startswith_split in Hl.
  destruct (digit_run_split (skipn (length l) s))
    as (ds & rest & Hs & Hlen & Hds & Hrest).
  destruct (digit_run decimal (skipn (length l) s)) as [|k] eqn:Hk;
    [discriminate|].
  injection H as <-. rewrite <- Hlen.
  exists ds, rest. rewrite Hs in Hl.
  split; [assumption|]. split; [|split; [reflexivity|split]].
  - unfold whole_number. simpl. repeat split; try assumption.
    intros ->. discriminate.
  - rewrite Hl at 1. rewrite app_assoc.
    rewrite firstn_app, <- length_app, firstn_all, Nat.sub_diag.
    simpl. apply app_nil_r.
  - rewrite Hl at 1. rewrite app_assoc.
    rewrite skipn_app, <- length_app, skipn_all, Nat.sub_diag.
    reflexivity.
Qed.

Lemma match_lit_digits_token s :
  match_lit_digits decimal l s = None <-> token_at decimal l s = false.
Proof.
  unfold match_lit_digits, token_at.
  destruct (startswith l s); simpl; [|tauto].
  destruct (skipn (length l) s) as [|c r]; simpl; [tauto|].
  destruct (decimal c); split; congruence.
Qed.

Lemma match_lit_digits_positive s : match_lit_digits decimal l s <> Some 0.
Proof.
  unfold match_lit_digits.
  destruct (startswith l s); [|discriminate].
  destruct (digit_run decimal _); [discriminate|].
  intros H. injection H as H. lia.
Qed.

(** Inside a match no other match starts, when the first character of the
    literal is no digit and does not come again in the literal. *)
Lemma tokens_skip w y :
  (forall w' , In w' (tails w) -> token_at decimal l (w' ++ y) = false) ->
  tokens decimal l (w ++ y) = tokens decimal l y.
Proof.
  induction w as [|c w IH]; intros H; [reflexivity|].
  change (tokens decimal l ((c :: w) ++ y))
    with ((if token_at decimal l ((c :: w) ++ y) then 1 else 0)
          + tokens decimal l (w ++ y)).
  rewrite (H (c :: w)) by now left.
  rewrite IH; [reflexivity|].
  intros w' Hw'. apply H. now right.
Qed.

Lemma token_at_other_head w y :
  match l with
  | c0 :: _ => Forall (fun x => x <> c0) w
  | [] => False
  end ->
  forall w', In w' (tails w) -> token_at decimal l (w' ++ y) = false.
Proof.
  destruct l as [|c0 l']; [tauto|].
  intros H w' Hw'. unfold token_at.
  induction w as [|x w IH]; [destruct Hw'|].
  inversion H as [|? ? Hx Hw]; subst.
  destruct Hw' as [<- | Hw']; [|now apply IH].
  simpl. destruct (N.eqb_spec c0 x); [congruence | reflexivity].
Qed.

Lemma digits_other c0 ds :
  decimal c0 = false -> forallb decimal ds = true ->
  Forall (fun x => x <> c0) ds.
Proof.
  intros Hc0 Hds. rewrite forallb_forall in Hds.
  apply Forall_forall. intros x Hx ->.
  rewrite (Hds _ Hx) in Hc0. discriminate.
Qed.

Lemma tokens_copy c s :
  match_lit_digits decimal l (c :: s) = None ->
  tokens decimal l (c :: s) = tokens decimal l s.
Proof.
  intros E. apply match_lit_digits_token in E.
  change (tokens decimal l (c :: s))
    with ((if token_at decimal l (c :: s) then 1 else 0) + tokens decimal l s).
  now rewrite E.
Qed.

Lemma tokens_match s n c0 l' :
  l = c0 :: l' -> ~ In c0 l' -> decimal c0 = false ->
  match_lit_digits decimal l s = Some n ->
  tokens decimal l s = S (tokens decimal l (skipn n s)).
Proof.
  intros Hl Hc0 Hd E.
  destruct (match_lit_digits_inv _ _ E)
    as (ds & rest & Hs & (_ & Hds & _) & _ & _ & ->).
  cbn [fst] in Hds.
  assert (Ht : token_at decimal l s = true).
  { destruct (token_at decimal l s) eqn:Ht; [reflexivity|].
    apply match_lit_digits_token in Ht. congruence. }
  rewrite Hs in Ht |- *. rewrite Hl at 2.
  change (tokens decimal l ((c0 :: l') ++ ds ++ rest))
    with ((if token_at decimal l ((c0 :: l') ++ ds ++ rest) then 1 else 0)
          + tokens decimal l (l' ++ ds ++ rest)).
  rewrite <- Hl, Ht, app_assoc, tokens_skip; [reflexivity|].
  apply token_at_other_head. rewrite Hl.
  apply Forall_app. split.
  - apply Forall_forall. intros x Hx ->. contradiction.
  - now apply digits_other.
Qed.

Variable repl : text -> text.

(** The substitution cuts the text at the matches it finds, each a whole
    number after the literal, and rewrites the matches only; the matches are
    all the occurrences there are. *)
Lemma sub_lit_digits_weave s :
  exists before toks,
    s = weave (fun ds => l ++ ds) before toks /\
    sub (match_lit_digits decimal l) repl s
      = weave (fun ds => repl (l ++ ds)) before toks /\
    Forall (whole_number decimal) toks /\
    (forall c0 l', l = c0 :: l' -> ~ In c0 l' -> decimal c0 = false ->
       length toks = tokens decimal l s).
Proof.
  induction s as [s IH] using text_length_ind.
  destruct s as [|c s].
  - exists [], []. repeat split; try constructor.
    intros c0 l' -> _ _. reflexivity.
  - rewrite sub_cons.
    assert (Hcopy : match_lit_digits decimal l (c :: s) = None ->
      exists before toks,
        c :: s = weave (fun ds => l ++ ds) before toks /\
        c :: sub (match_lit_digits decimal l) repl s
          = weave (fun ds => repl (l ++ ds)) before toks /\
        Forall (whole_number decimal) toks /\
        (forall c0 l', l = c0 :: l' -> ~ In c0 l' -> decimal c0 = false ->
           length toks = tokens decimal l (c :: s))).
    { intros E.
      destruct (IH s) as (before & toks & Hs & Hsub & Htoks & Hcount);
        [simpl; lia|].
      exists (c :: before), toks.
      split; [|split; [|split]]; try assumption.
      - unfold weave in *. simpl. now rewrite Hs at 1.
      - unfold weave in *. simpl. now rewrite Hsub.
      - intros c0 l' Hl Hc0 Hd.
        rewrite tokens_copy by assumption. now apply (Hcount c0 l'). }
    destruct (match_lit_digits decimal l (c :: s)) as [[|k]|] eqn:E.
    + now apply match_lit_digits_positive in E.
    + destruct (match_lit_digits_inv _ _ E)
        as (ds & rest & Hs & Hw & Hn & Hfirst & Hskip).
      rewrite Hfirst, Hskip.
      destruct (IH rest) as (before & toks & Hrest & Hsub & Htoks & Hcount).
      { rewrite <- Hskip, length_skipn. simpl. lia. }
      exists [], ((ds, before) :: toks).
      split; [|split; [|split]].
      * unfold weave in *. simpl. rewrite Hs, <- !app_assoc.
        now rewrite Hrest at 1.
      * unfold weave in *. simpl. now rewrite Hsub, <- !app_assoc.
      * constructor; [|assumption].
        destruct Hw as (H1 & H2 & H3). unfold whole_number.
        cbn [fst snd] in *.
        repeat split; try assumption.
        rewrite Hrest in H3.
        destruct before as [|b before]; [reflexivity|].
        simpl in H3 |- *. destruct (decimal b); [discriminate | reflexivity].
      * intros c0 l' Hl Hc0 Hd.
        simpl length. rewrite (Hcount c0 l' Hl Hc0 Hd).
        now rewrite (tokens_match (c :: s) (S k) c0 l' Hl Hc0 Hd E), Hskip.
    + now apply Hcopy.
Qed.
End LitDigits.

(** ** The retransmission-time step *)

Lemma str_in_app_l p z s : str_in (p ++ z) s = true -> str_in p s = true.
Proof.
  induction s as [|c s IH]; simpl; intros H.
  - apply orb_true_iff in H as [H | H]; [|discriminate].
    now rewrite (startswith_app_l _ _ _ H).
  - apply orb_true_iff in H as [H | H].
    + now rewrite (startswith_app_l _ _ _ H).
    + rewrite (IH H). apply orb_true_r.
Qed.

Lemma startswith_weaken p a b :
  startswith p a = true -> startswith p (a ++ b) = true.
Proof.
  revert a; induction p as [|x p IH]; intros [|y a] H; simpl in *;
    try reflexivity; try discriminate.
  apply andb_true_iff in H as [-> H]. simpl. now apply IH.
Qed.

Lemma str_in_left p a b : str_in p a = true -> str_in p (a ++ b) = true.
Proof.
  induction a as [|c a IH]; simpl; intros H.
  - rewrite orb_false_r in H. apply startswith_nil_r in H. subst p.
    now destruct b.
  - apply orb_true_iff in H as [H | H].
    + change (c :: a ++ b) with ((c :: a) ++ b).
      now rewrite (startswith_weaken _ (c :: a) b H).
    + rewrite (IH H). apply orb_true_r.
Qed.

Lemma str_in_right p a b : str_in p b = true -> str_in p (a ++ b) = true.
Proof.
  intros H. induction a as [|c a IH]; simpl; [assumption|].
  rewrite IH. apply orb_true_r.
Qed.

Lemma weave_nil f before : weave f before [] = before.
Proof. unfold weave. simpl. apply app_nil_r. Qed.

(** The step leaves the text as it is, or leaves a text that has
    [rtx-time=125] in it. *)
Lemma rtx_time_step_settles decimal s :
  rtx_time_step decimal s = s \/
  str_in (lit "rtx-time=125") (rtx_time_step decimal s) = true.
Proof.
  unfold rtx_time_step.
  destruct (str_in (lit "rtx-time") s); simpl.
  - destruct (str_in (lit "rtx-time=125") s) eqn:E; simpl; [now right|].
    unfold sub_rtx.
    destruct (sub_lit_digits_weave decimal (lit "rtx-time=")
                (fun _ => lit "rtx-time=125") s)
      as (before & [|[ds gap] toks] & Hs & -> & _).
    + left. now rewrite weave_nil in *.
    + right. unfold weave. cbn [flat_map fst snd].
      rewrite <- app_assoc. apply str_in_infix.
  - unfold sub_apt.
    destruct (sub_lit_digits_weave decimal (lit "apt=")
                (fun g1 => g1 ++ lit ";rtx-time=125") s)
      as (before & [|[ds gap] toks] & Hs & -> & _).
    + left. now rewrite weave_nil in *.
    + right. unfold weave. cbn [flat_map fst snd].
      apply str_in_right, str_in_left, str_in_left, str_in_right.
      reflexivity.
Qed.

Lemma rtx_time_step_idempotent decimal s :
  rtx_time_step decimal (rtx_time_step decimal s) = rtx_time_step decimal s.
Proof.
  destruct (rtx_time_step_settles decimal s) as [E | H]; [now rewrite !E|].
  unfold rtx_time_step at 1.
  rewrite H.
  change (lit "rtx-time=125") with (lit "rtx-time" ++ lit "=125") in H.
  now rewrite (str_in_app_l _ _ _ H).
Qed.

(** C5, as the claim has it, fails: a text that has [rtx-time=125] somewhere
    keeps its other retransmission times. *)
Lemma rtx_time_mixed_kept :
  token_at ascii_digit (lit "rtx-time=") (lit "rtx-time=3000") = true /\
  str_in (lit "rtx-time=3000") offer_mixed = true /\
  rtx_time_step ascii_digit offer_mixed = offer_mixed /\
  str_in (lit "rtx-time=3000") (rtx_time_step ascii_digit offer_mixed) = true.
Proof. repeat split; vm_compute; reflexivity. Qed.

(** C5, amended: in a text that has [rtx-time] but no [rtx-time=125] in it,
    every [rtx-time=<n>] occurrence, with its whole number, becomes
    [rtx-time=125] and everything else is copied; a text that has
    [rtx-time=125] in it is left as it is; and the step applied to its own
    result changes nothing. *)
Theorem rtx_time_overwritten (decimal : N -> bool) (s : text) :
  agrees_on_ascii decimal ->
  rtx_time_step decimal (rtx_time_step decimal s) = rtx_time_step decimal s /\
  (str_in (lit "rtx-time=125") s = true -> rtx_time_step decimal s = s) /\
  (str_in (lit "rtx-time") s = true ->
   str_in (lit "rtx-time=125") s = false ->
   exists before toks,
     s = weave (fun n => lit "rtx-time=" ++ n) before toks /\
     rtx_time_step decimal s
       = weave (fun _ => lit "rtx-time=125") before toks /\
     Forall (whole_number decimal) toks /\
     length toks = tokens decimal (lit "rtx-time=") s).
Proof.
  intros Hd. split; [apply rtx_time_step_idempotent|]. split.
  - intros H. unfold rtx_time_step. rewrite H.
    change (lit "rtx-time=125") with (lit "rtx-time" ++ lit "=125") in H.
    now rewrite (str_in_app_l _ _ _ H).
  - intros H1 H2. unfold rtx_time_step. rewrite H1, H2. simpl negb. cbv iota.
    destruct (sub_lit_digits_weave decimal (lit "rtx-time=")
                (fun _ => lit "rtx-time=125") s)
      as (before & toks & G1 & G2 & G3 & G4).
    exists before, toks. repeat split; try assumption.
    apply (G4 114%N (lit "tx-time=")); [reflexivity | | now rewrite Hd].
    cbv. intuition discriminate.
Qed.

Lemma rtx_time_overwritten_witness :
  agrees_on_ascii ascii_digit /\
  str_in (lit "rtx-time") offer_rtx_3000 = true /\
  str_in (lit "rtx-time=125") offer_rtx_3000 = false /\
  rtx_time_step ascii_digit (rtx_time_step ascii_digit offer_rtx_3000)
    = rtx_time_step ascii_digit offer_rtx_3000 /\
  exists before toks,
     offer_rtx_3000 = weave (fun n => lit "rtx-time=" ++ n) before toks /\
     rtx_time_step ascii_digit offer_rtx_3000
       = weave (fun _ => lit "rtx-time=125") before toks /\
     Forall (whole_number ascii_digit) toks /\
     length toks = tokens ascii_digit (lit "rtx-time=") offer_rtx_3000.
Proof.
  assert (Hd : agrees_on_ascii ascii_digit) by (intros c _; reflexivity).
  destruct (rtx_time_overwritten ascii_digit offer_rtx_3000 Hd) as (H1 & _ & H3).
  split; [exact Hd|].
  split; [reflexivity|].
  split; [reflexivity|].
  split; [exact H1|].
  apply H3; reflexivity.
Defined.

(** ** Occurrences of a text across the substitutions of the handler *)

Lemma never_starts_in_digits decimal p ds :
  match p with c :: _ => decimal c = false | [] => False end ->
  forallb decimal ds = true ->
  never_starts_in p ds.
Proof.
  destruct p as [|c p]; [tauto|].
  intros Hc Hds w' y Hw'.
  induction ds as [|x ds IH]; [destruct Hw'|].
  simpl in Hds. apply andb_true_iff in Hds as [Hx Hds].
  destruct Hw' as [<- | Hw']; [|now apply IH].
  simpl. destruct (N.eqb_spec c x); [congruence | reflexivity].
Qed.

Lemma sub_lit_digits_keeps_occurrences decimal l repl p s :
  match p with c :: _ => decimal c = false | [] => False end ->
  apart p l = true ->
  (forall ds, forallb decimal ds = true -> avoids p (l ++ ds) ->
     avoids p (repl (l ++ ds))) ->
  occurrences p (sub (match_lit_digits decimal l) repl s) = occurrences p s.
Proof.
  intros Hp Hl Hrepl.
  apply sub_keeps_occurrences; [|destruct p; [tauto | discriminate]].
  intros s0 k E.
  destruct (match_lit_digits_inv _ _ _ _ E)
    as (ds & rest & Hs & (_ & Hds & _) & Hn & Hfirst & _).
  cbn [fst] in Hds.
  assert (Hw : avoids p (l ++ ds)).
  { apply avoids_app; [now apply apart_avoids|].
    now apply (never_starts_in_digits decimal). }
  rewrite Hfirst. repeat split; try apply Hw; try (apply Hrepl; assumption).
  rewrite Hs, Hn, !length_app. lia.
Qed.

(** What a text must be for the retransmission-time step to keep its
    occurrences: apart from the matches and from what is written. *)
Lemma rtx_time_step_keeps_occurrences decimal p s :
  agrees_on_ascii decimal ->
  match p with c :: _ => (c < 128)%N /\ ascii_digit c = false | [] => False end ->
  apart p (lit "apt=") = true ->
  apart p (lit ";rtx-time=125") = true ->
  apart p (lit "rtx-time=") = true ->
  apart p (lit "rtx-time=125") = true ->
  occurrences p (rtx_time_step decimal s) = occurrences p s.
Proof.
  intros Hd Hp H1 H2 H3 H4.
  assert (Hp' : match p with c :: _ => decimal c = false | [] => False end).
  { destruct p as [|c p]; [tauto|]. destruct Hp as [Hc Hc']. now rewrite Hd. }
  unfold rtx_time_step.
  destruct (str_in (lit "rtx-time") s); simpl.
  - destruct (str_in (lit "rtx-time=125") s); simpl; [reflexivity|].
    apply sub_lit_digits_keeps_occurrences; try assumption.
    intros ds _ _. now apply apart_avoids.
  - apply sub_lit_digits_keeps_occurrences; try assumption.
    intros ds _ Hw. apply avoids_app; [assumption|].
    now apply apart_avoids.
Qed.

Section Replace.
Variables old new : text.
Hypothesis old_not_empty : old <> [].

Lemma str_replace_match y :
  str_replace old new (old ++ y) = new ++ str_replace old new y.
Proof.
  unfold str_replace. destruct old as [|o old'] eqn:E; [congruence|].
  change ((o :: old') ++ y) with (o :: old' ++ y).
  rewrite sub_cons. unfold match_lit at 1.
  change (o :: old' ++ y) with ((o :: old') ++ y).
  rewrite startswith_app.
  change (length (o :: old')) with (S (length old')).
  cbv iota. f_equal.
  change (S (length old')) with (length (o :: old')).
  rewrite skipn_app, skipn_all, Nat.sub_diag. reflexivity.
Qed.

Lemma str_replace_copy c s :
  startswith old (c :: s) = false ->
  str_replace old new (c :: s) = c :: str_replace old new s.
Proof.
  intros H. unfold str_replace. rewrite sub_cons.
  unfold match_lit at 1. now rewrite H.
Qed.

Lemma str_replace_cases c s :
  (startswith old (c :: s) = false /\
   str_replace old new (c :: s) = c :: str_replace old new s) \/
  (exists rest, c :: s = old ++ rest /\ length rest < length (c :: s) /\
   str_replace old new (c :: s) = new ++ str_replace old new rest).
Proof.
  destruct (startswith old (c :: s)) eqn:E.
  - right. apply startswith_split in E.
    exists (skipn (length old) (c :: s)).
    split; [assumption|]. split.
    + rewrite length_skipn. destruct old; [congruence|]. simpl. lia.
    + rewrite E at 1. apply str_replace_match.
  - left. split; [reflexivity|]. now apply str_replace_copy.
Qed.

(** A text apart from [old] and [new] occurs as often after the
    replacement as before. *)
Lemma str_replace_keeps_occurrences p s :
  p <> [] -> apart p old = true -> apart p new = true ->
  occurrences p (str_replace old new s) = occurrences p s.
Proof.
  intros Hp Hold Hnew. apply sub_keeps_occurrences; [|assumption].
  intros s0 k E. unfold match_lit in E.
  destruct (startswith old s0) eqn:Hs; [|discriminate].
  injection E as E. apply startswith_split in Hs.
  assert (Hfirst : firstn (S k) s0 = old).
  { rewrite Hs, <- E, firstn_app, firstn_all, Nat.sub_diag. simpl.
    apply app_nil_r. }
  rewrite Hfirst.
  repeat split; try (apply apart_avoids; assumption).
  rewrite Hs, length_app. lia.
Qed.

(** Suffixes that clash with [old] and with [new] start the replaced text
    exactly when they start the text. *)
Lemma str_replace_keeps_prefixes base s :
  forallb (fun q => clash q new && clash q old) (tails base) = true ->
  forall q, In q (tails base) ->
    startswith q (str_replace old new s) = startswith q s.
Proof.
  intros H. rewrite forallb_forall in H.
  induction s as [s IH] using text_length_ind.
  intros q Hq. destruct s as [|c s]; [reflexivity|].
  destruct (str_replace_cases c s) as [[_ ->] | (rest & -> & _ & ->)].
  - destruct q as [|x q]; [reflexivity|]. simpl.
    destruct (tails_tail _ _ _ Hq) as [-> | Hq'].
    + now destruct s; destruct (str_replace old new _).
    + rewrite IH by (simpl; auto). reflexivity.
  - specialize (H q Hq). apply andb_true_iff in H as [H1 H2].
    now rewrite !clash_startswith.
Qed.

Lemma occurrences_self p y :
  p <> [] -> unbordered p = true ->
  occurrences p (p ++ y) = S (occurrences p y).
Proof.
  intros Hp Hu. destruct p as [|c p']; [congruence|].
  change (occurrences (c :: p') ((c :: p') ++ y))
    with ((if startswith (c :: p') ((c :: p') ++ y) then 1 else 0)
          + occurrences (c :: p') (p' ++ y)).
  rewrite startswith_app, occurrences_skip; [reflexivity|].
  unfold unbordered in Hu. simpl in Hu. rewrite forallb_forall in Hu.
  intros w' y' Hw'. apply clash_startswith. now apply Hu.
Qed.

Lemma occurrences_none_right p a b :
  occurrences p (a ++ b) = 0 -> occurrences p b = 0.
Proof.
  induction a as [|c a IH]; [trivial|].
  change (occurrences p ((c :: a) ++ b))
    with ((if startswith p ((c :: a) ++ b) then 1 else 0)
          + occurrences p (a ++ b)).
  intros H. apply IH. lia.
Qed.

(** [new] begins with a mark the text does not have: after the replacement
    [new] occurs as often as [old] did. *)
Lemma str_replace_counts mark s :
  mark <> [] -> startswith mark new = true ->
  unbordered new = true -> unbordered old = true ->
  forallb (fun q => clash q new && clash q old) (tails (tl mark)) = true ->
  occurrences mark s = 0 ->
  occurrences new (str_replace old new s) = occurrences old s.
Proof.
  intros Hmark Hnew Hunew Huold Hq.
  assert (Hnew' : new <> []).
  { intros ->. destruct mark; [congruence | discriminate]. }
  induction s as [s IH] using text_length_ind.
  intros Hs. destruct s as [|c s].
  - simpl. destruct new, old; try congruence. reflexivity.
  - destruct (str_replace_cases c s) as [[Hc ->] | (rest & E & Hlen & ->)].
    + change (occurrences mark (c :: s))
        with ((if startswith mark (c :: s) then 1 else 0) + occurrences mark s)
        in Hs.
      change (occurrences old (c :: s))
        with ((if startswith old (c :: s) then 1 else 0) + occurrences old s).
      change (occurrences new (c :: str_replace old new s))
        with ((if startswith new (c :: str_replace old new s) then 1 else 0)
              + occurrences new (str_replace old new s)).
      rewrite Hc, IH by (simpl; lia).
      destruct (startswith new (c :: str_replace old new s)) eqn:Hn;
        [|reflexivity].
      exfalso.
      apply (startswith_trans _ _ _ Hnew) in Hn.
      destruct (startswith mark (c :: s)) eqn:Hm; [lia|].
      destruct mark as [|x mark']; [congruence|].
      cbn [startswith tl] in Hn, Hm, Hq.
      apply andb_true_iff in Hn as [Hx Hn]. rewrite Hx in Hm.
      cbn [andb] in Hm.
      destruct mark' as [|x' mark'']; [cbn in Hm; discriminate|].
      rewrite (str_replace_keeps_prefixes (x' :: mark'') s Hq) in Hn
        by now left.
      congruence.
    + rewrite E in Hs |- *.
      rewrite !occurrences_self by assumption.
      f_equal. apply IH; [assumption|].
      now apply occurrences_none_right in Hs.
Qed.
End Replace.

(** Two insertions before [old], one after the other, are one insertion. *)
Lemma str_replace_twice old a b s :
  old <> [] ->
  forallb (fun q => clash q (a ++ old) && clash q old) (tails (tl old)) = true ->
  forallb (fun a' => clash old (a' ++ old)) (tails a) = true ->
  str_replace old (b ++ old) (str_replace old (a ++ old) s)
  = str_replace old (a ++ b ++ old) s.
Proof.
  intros Hold Hq Ha. rewrite forallb_forall in Ha.
  induction s as [s IH] using text_length_ind.
  destruct s as [|c s]; [reflexivity|].
  destruct (str_replace_cases old (a ++ b ++ old) Hold c s)
    as [[Hc ->] | (rest & E & Hlen & ->)].
  - rewrite (str_replace_copy old (a ++ old) c s Hc).
    rewrite str_replace_copy; [now rewrite IH by (simpl; lia)|].
    destruct old as [|o old']; [congruence|].
    cbn [startswith tl] in Hc, Hq |- *.
    destruct (N.eqb o c); [cbn [andb] in *|reflexivity].
    destruct old' as [|o' old'']; [cbn in Hc; discriminate|].
    rewrite (str_replace_keeps_prefixes _ _ Hold (o' :: old'') s Hq)
      by now left.
    exact Hc.
  - rewrite E, (str_replace_match old (a ++ old) Hold).
    rewrite <- app_assoc. unfold str_replace at 1.
    rewrite sub_copy.
    + fold (str_replace old (b ++ old) (old ++ str_replace old (a ++ old) rest)).
      rewrite (str_replace_match old (b ++ old) Hold), IH by assumption.
      now rewrite <- !app_assoc.
    + intros a' Ha'. unfold match_lit.
      rewrite app_assoc, clash_startswith; [reflexivity|].
      now apply Ha.
Qed.

(** ** The H.264 step *)

Lemma str_in_same p a b :
  occurrences p a = occurrences p b -> str_in p a = str_in p b.
Proof.
  intros H. destruct (str_in p b) eqn:E.
  - apply str_in_true_occurrences. rewrite H.
    now apply str_in_true_occurrences.
  - apply str_in_occurrences. rewrite H. now apply str_in_occurrences.
Qed.

(** In a text without [profile-level-id], the step puts the profile, and
    the asymmetry flag when the text has none, before every
    [packetization-mode=1]. *)
Lemma h264_step_counts t :
  str_in profile_level_id t = false ->
  occurrences
    (if str_in level_asymmetry t then profile_mode else profile_asymmetry_mode)
    (h264_step t)
  = occurrences packetization t.
Proof.
  intros HP. unfold h264_step.
  fold profile_level_id level_asymmetry packetization profile_mode.
  rewrite HP. cbn [negb].
  assert (Hne : packetization <> []) by discriminate.
  assert (HL : str_in level_asymmetry
                 (str_replace packetization profile_mode t)
               = str_in level_asymmetry t).
  { apply str_in_same, str_replace_keeps_occurrences;
      solve [assumption | discriminate | vm_compute; reflexivity]. }
  rewrite HL.
  apply str_in_occurrences in HP.
  destruct (str_in level_asymmetry t); cbn [negb].
  - apply (str_replace_counts packetization profile_mode Hne profile_level_id);
      solve [assumption | discriminate | vm_compute; reflexivity].
  - change (lit "level-asymmetry-allowed=1;packetization-mode=1")
      with (lit "level-asymmetry-allowed=1;" ++ packetization).
    change profile_mode with (lit "profile-level-id=42e01f;" ++ packetization).
    rewrite str_replace_twice;
      try solve [assumption | vm_compute; reflexivity].
    change (lit "profile-level-id=42e01f;" ++
            lit "level-asymmetry-allowed=1;" ++ packetization)
      with profile_asymmetry_mode.
    apply (str_replace_counts packetization profile_asymmetry_mode Hne
             profile_level_id);
      solve [assumption | discriminate | vm_compute; reflexivity].
Qed.

(** The whole of the text processing, for an H.264 encoder. *)
Lemma offer_text_counts decimal offer :
  agrees_on_ascii decimal ->
  str_in profile_level_id offer = false ->
  occurrences
    (if str_in level_asymmetry offer
     then profile_mode else profile_asymmetry_mode)
    (h264_step (rtx_time_step decimal offer))
  = occurrences packetization offer.
Proof.
  intros Hd HP.
  assert (Hsame : forall p,
            In p [profile_level_id; level_asymmetry; packetization] ->
            occurrences p (rtx_time_step decimal offer) = occurrences p offer).
  { intros p Hp. apply rtx_time_step_keeps_occurrences; try assumption;
      simpl in Hp; decompose [or] Hp; subst; try tauto;
      vm_compute; intuition congruence. }
  rewrite <- (str_in_same level_asymmetry _ _
                (Hsame _ (or_intror (or_introl eq_refl)))).
  rewrite h264_step_counts.
  - apply Hsame. simpl. tauto.
  - rewrite (str_in_same _ _ _ (Hsame _ (or_introl eq_refl))). exact HP.
Qed.

(** ** The entry points of the host *)

Section Entry.
Variable eng : Engine.

Lemma set_sdp_run sdp_type sdp s :
  set_sdp sdp_type sdp s =
  match webrtcbin (self s) with
  | None => (Raise (GSTWebRTCAppError SDP_before_session), s, [])
  | Some w =>
      if text_eqb sdp_type (lit "answer")
      then (Return tt, s, [emit w (set_remote_description sdp); promise_interrupt])
      else (Raise (GSTWebRTCAppError SDP_not_answer), s, [])
  end.
Proof.
  unfold set_sdp, bind, get.
  destruct (webrtcbin (self s)); [|reflexivity].
  destruct (text_eqb sdp_type (lit "answer")); reflexivity.
Qed.

Lemma set_ice_run mlineindex candidate s :
  set_ice mlineindex candidate s =
  match webrtcbin (self s) with
  | None => (Raise (GSTWebRTCAppError ICE_before_session), s, [])
  | Some w => (Return tt, s, [emit w (add_ice_candidate mlineindex candidate)])
  end.
Proof.
  unfold set_ice, bind, get.
  destruct (webrtcbin (self s)); reflexivity.
Qed.

Lemma stop_pipeline_run s :
  stop_pipeline s =
  (Return tt, {| self := stopped (self s); created := created s |},
   teardown (pipeline (self s)) ++ teardown (webrtcbin (self s))
     ++ teardown (fakesink (self s))).
Proof.
  destruct s as [[stun turn [p|] [w|] enc [f|]] n]; reflexivity.
Qed.

Lemma on_offer_created_run offer s :
  on_offer_created eng offer s =
  match webrtcbin (self s) with
  | None => (Raise AttributeError, s, [])
  | Some w =>
      match encoder (self s) with
      | None =>
          (Raise TypeError, s,
           [emit w (set_local_description offer); promise_interrupt])
      | Some enc =>
          (if on_sdp_awaitable eng then Return tt else Raise TypeError, s,
           [emit w (set_local_description offer); promise_interrupt;
            on_sdp (lit "offer")
              (if str_in (lit "264") enc
               then h264_step (rtx_time_step (decimal eng) offer)
               else rtx_time_step (decimal eng) offer)])
      end
  end.
Proof.
  unfold on_offer_created, run_until_complete, bind, get, attr, in_encoder,
    do, ret, raise.
  destruct (webrtcbin (self s)); [|reflexivity].
  destruct (encoder (self s)); [|reflexivity].
  destruct (on_sdp_awaitable eng); reflexivity.
Qed.

(** The candidate goes to the hook; what the hook gives is then awaited. *)
Lemma send_ice_run mlineindex candidate s :
  send_ice eng mlineindex candidate s =
  (if on_ice_awaitable eng then Return tt else Raise TypeError, s,
   [on_ice mlineindex candidate]).
Proof.
  unfold send_ice, run_until_complete, bind, do, ret, raise.
  destruct (on_ice_awaitable eng); reflexivity.
Qed.

(** The pad handler makes a sink and links it; [self] is left as it is. *)
Lemma handle_webcam_stream_run pad_name s :
  exists r l,
    handle_webcam_stream eng pad_name s
    = (r, {| self := self s;
             created := if negb (str_in (lit "sink") pad_name)
                           && has_factory eng "fakesink"
                        then S (created s) else created s |}, l) /\
    forallb setup_call l = true.
Proof.
  destruct s as [[stun turn p w enc f] n].
  unfold handle_webcam_stream, make.
  cbn [self created].
  destruct (str_in (lit "sink") pad_name); cbn [negb andb];
    [now eexists; eexists|].
  destruct (has_factory eng "fakesink"), p, w, (links eng);
    cbv -[lit]; eexists; eexists; split; reflexivity.
Qed.
End Entry.

(** C1, as the claim has it, fails: before the pipeline is started an offer
    is turned down for the state, not for its type. *)
Lemma set_sdp_offer_before_start :
  set_sdp (lit "offer") (lit "v=0") (boot x264_app)
  = (Raise (GSTWebRTCAppError SDP_before_session), boot x264_app, []) /\
  classify SDP_before_session = InvalidStateError /\
  classify SDP_before_session <> ProtocolError.
Proof. repeat split. discriminate. Qed.

(** C1, amended: [set_sdp] with type [offer] always fails, calls nothing and
    changes nothing; the error is the wrong-type one when the transport
    element exists, and the not-started one when it does not. *)
Theorem set_sdp_offer_fails (s : machine) (sdp : text) :
  exists e,
    set_sdp (lit "offer") sdp s = (Raise (GSTWebRTCAppError e), s, []) /\
    e = match webrtcbin (self s) with
        | Some _ => SDP_not_answer
        | None => SDP_before_session
        end /\
    classify e = match webrtcbin (self s) with
                 | Some _ => ProtocolError
                 | None => InvalidStateError
                 end.
Proof.
  rewrite set_sdp_run.
  destruct (webrtcbin (self s)); eexists; repeat split.
Qed.

Lemma released_before_later h1 h2 l1 l2 :
  existsb (is_unparent h2) l2 = true ->
  released_before h1 h2 (l1 ++ unparent h1 :: l2) = true.
Proof.
  intros H. induction l1 as [|c l1 IH]; simpl.
  - now rewrite Nat.eqb_refl.
  - destruct (is_unparent h1 c); [|assumption].
    rewrite existsb_app. simpl. rewrite H. now rewrite !orb_true_r.
Qed.

(** C2, as the claim has it, fails: on a started controller the pipeline is
    released first and the transport element after it; and were all three
    handles there, the sink would come last. *)
Lemma stop_releases_pipeline_first :
  pipeline (self x264_started) = Some 0 /\
  webrtcbin (self x264_started) = Some 1 /\
  snd (stop_pipeline x264_started)
  = [set_state 0 NULL; unparent 0; set_state 1 NULL; unparent 1] /\
  released_before 1 0 (snd (stop_pipeline x264_started)) = false /\
  snd (stop_pipeline
         {| self := {| stun_servers := None; turn_servers := None;
                       pipeline := Some 0; webrtcbin := Some 1;
                       encoder := None; fakesink := Some 2 |};
            created := 3 |})
  = [set_state 0 NULL; unparent 0; set_state 1 NULL; unparent 1;
     set_state 2 NULL; unparent 2].
Proof. repeat split. Qed.

(** C2, amended: [stop_pipeline] releases the pipeline first, then the
    transport element, then the sink, each set to the null state and
    detached if it is there; all three attributes are [None] afterwards. *)
Theorem stop_pipeline_order (s : machine) :
  stop_pipeline s =
  (Return tt, {| self := stopped (self s); created := created s |},
   teardown (pipeline (self s)) ++ teardown (webrtcbin (self s))
     ++ teardown (fakesink (self s))) /\
  (forall p w, pipeline (self s) = Some p -> webrtcbin (self s) = Some w ->
     released_before p w (snd (stop_pipeline s)) = true) /\
  (forall w f, webrtcbin (self s) = Some w -> fakesink (self s) = Some f ->
     released_before w f (snd (stop_pipeline s)) = true).
Proof.
  rewrite stop_pipeline_run. split; [reflexivity|]. split.
  - intros p w -> ->. cbn [snd teardown].
    apply (released_before_later p w [set_state p NULL]).
    simpl. now rewrite Nat.eqb_refl.
  - intros w f -> ->. cbn [snd teardown].
    change ([set_state w NULL; unparent w] ++ [set_state f NULL; unparent f])
      with ([set_state w NULL] ++ unparent w :: [set_state f NULL; unparent f]).
    rewrite app_assoc.
    apply (released_before_later w f (teardown _ ++ [set_state w NULL])).
    simpl. now rewrite Nat.eqb_refl.
Qed.

Lemma stop_pipeline_order_witness :
  pipeline (self x264_started) = Some 0 /\
  webrtcbin (self x264_started) = Some 1 /\
  released_before 0 1 (snd (stop_pipeline x264_started)) = true.
Proof.
  split; [reflexivity|]. split; [reflexivity|].
  apply (proj1 (proj2 (stop_pipeline_order x264_started)) 0 1);
    reflexivity.
Defined.

(** C9: [stop_pipeline] returns whatever the state; after it the three
    handles are [None], and a second call returns too, calls nothing and
    leaves the state as it is. *)
Theorem stop_pipeline_idempotent (s : machine) :
  exists s1 l1,
    stop_pipeline s = (Return tt, s1, l1) /\
    pipeline (self s1) = None /\ webrtcbin (self s1) = None /\
    fakesink (self s1) = None /\
    stop_pipeline s1 = (Return tt, s1, []).
Proof.
  rewrite stop_pipeline_run. eexists. eexists.
  split; [reflexivity|]. rewrite stop_pipeline_run.
  destruct s as [[stun turn p w enc f] n]. repeat split.
Qed.

(** ** Construction and start *)

Section Start.
Variable eng : Engine.

Lemma filter_missing_run l s :
  filter_missing eng l s =
  (Return (filter (fun p => negb (has_plugin eng p)) l), s, map find_plugin l).
Proof.
  induction l as [|p l IH]; [reflexivity|].
  simpl. unfold bind, do, ret. rewrite IH.
  destruct (has_plugin eng p); simpl; now rewrite app_nil_r.
Qed.

Lemma check_plugins_run s :
  check_plugins eng s =
  (match missing_plugins eng with
   | [] => Return tt
   | _ :: _ => Raise (GSTWebRTCAppError (Missing_plugins (missing_plugins eng)))
   end, s, map find_plugin required).
Proof.
  unfold check_plugins, bind. rewrite filter_missing_run.
  fold (missing_plugins eng).
  destruct (missing_plugins eng); simpl; now rewrite ?app_nil_r.
Qed.

Lemma init_run stun turn enc :
  init eng stun turn enc =
  (match missing_plugins eng with
   | [] => Return (new_self stun turn enc)
   | _ :: _ => Raise (GSTWebRTCAppError (Missing_plugins (missing_plugins eng)))
   end, Gst_init :: map find_plugin required).
Proof.
  unfold init, bind, do. rewrite check_plugins_run.
  destruct (missing_plugins eng); reflexivity.
Qed.

Lemma for_each_calls (f : text -> call) l s :
  for_each l (fun x s => (Return tt, s, [f x])) s = (Return tt, s, map f l).
Proof.
  revert s; induction l as [|x l IH]; intros s; [reflexivity|].
  simpl. unfold bind. now rewrite IH.
Qed.

(** [start_pipeline] in one piece: the pipeline first, then the transport
    element; without the element the method stops on the first use of it. *)
Lemma start_pipeline_run s :
  start_pipeline eng s =
  let p := created s in
  let w := S (created s) in
  if has_factory eng "webrtcbin" then
    (match playing eng with
     | GST_STATE_CHANGE_SUCCESS => Return tt
     | res => Raise (GSTWebRTCAppError (Playing_failed res))
     end,
     {| self := with_handles (self s) (Some p) (Some w); created := S w |},
     [Pipeline_new p; ElementFactory_make "webrtcbin" "app" (Some w);
      set_property w "bundle-policy" (lit "max-compat");
      connect w "on-negotiation-needed"; connect w "on-ice-candidate";
      connect w "pad-added"]
     ++ stun_calls w (self s) ++ turn_calls w (self s)
     ++ [pipeline_add p w; emit w add_transceiver; set_state p PLAYING])
  else
    (Raise AttributeError,
     {| self := with_handles (self s) (Some p) None; created := w |},
     [Pipeline_new p; ElementFactory_make "webrtcbin" "app" None]).
Proof.
  destruct s as [[stun turn p w enc f] n].
  destruct eng as [dec hp hf pl lk aw_sdp aw_ice].
  unfold start_pipeline, build_webrtcbin_pipeline, build_webcam_video_pipeline,
    make, stun_calls, turn_calls, with_handles.
  cbn [has_factory playing self created stun_servers turn_servers encoder
       fakesink].
  destruct (hf "webrtcbin"%string); [|reflexivity].
  destruct stun as [[|st stun]|]; destruct turn as [[|tu turn]|]; destruct pl;
    cbv -[for_each map lit app]; rewrite ?for_each_calls;
    cbn [app]; rewrite <- ?app_assoc; reflexivity.
Qed.

(** Whatever the engine answers, [start_pipeline] asks for no plugin: it
    makes the pipeline first and keeps it, and its calls are those of the
    set-up. *)
Lemma start_pipeline_shape s :
  exists r s1 l,
    start_pipeline eng s = (r, s1, Pipeline_new (created s) :: l) /\
    pipeline (self s1) = Some (created s) /\
    forallb setup_call l = true /\
    (forall m, r <> Raise (GSTWebRTCAppError (Missing_plugins m))) /\
    (forall w, webrtcbin (self s1) = Some w ->
       In (ElementFactory_make "webrtcbin" "app" (Some w)) l).
Proof.
  rewrite start_pipeline_run. cbv zeta.
  destruct (has_factory eng "webrtcbin").
  - eexists. eexists. eexists. split; [reflexivity|].
    split; [reflexivity|]. split; [|split].
    + cbn [app forallb setup_call andb]. rewrite !forallb_app.
      unfold stun_calls, turn_calls.
      assert (Hturn : forall w ts,
                forallb setup_call
                  (map (fun t => emit w (add_turn_server t)) ts) = true).
      { intros w ts. induction ts; simpl; auto. }
      destruct (stun_servers (self s)) as [[|? ?]|];
        destruct (turn_servers (self s)) as [ts|]; simpl;
        rewrite ?Hturn; reflexivity.
    + intros m. destruct (playing eng); discriminate.
    + intros w H. injection H as <-. now left.
  - eexists. eexists. eexists. split; [reflexivity|].
    repeat split; try discriminate.
Qed.
End Start.

(** C3, as the claim has it, fails: [start_pipeline] asks the registry
    nothing.  On a controller built while every plugin was there, started
    when [nice] is gone, it makes the pipeline and the transport element and
    returns. *)
Lemma start_pipeline_without_check :
  missing_plugins engine_without_nice = ["nice"%string] /\
  init engine_ok None None (Some (lit "x264enc"))
  = (Return x264_app, Gst_init :: map find_plugin required) /\
  start_pipeline engine_without_nice (boot x264_app)
  = (Return tt,
     {| self := with_handles x264_app (Some 0) (Some 1); created := 2 |},
     [Pipeline_new 0; ElementFactory_make "webrtcbin" "app" (Some 1);
      set_property 1 "bundle-policy" (lit "max-compat");
      connect 1 "on-negotiation-needed"; connect 1 "on-ice-candidate";
      connect 1 "pad-added"; pipeline_add 0 1; emit 1 add_transceiver;
      set_state 0 PLAYING]).
Proof. repeat split. Qed.

(** C3, amended: the plugins are checked when the controller is constructed.
    If a required plugin is absent, [__init__] raises the error with exactly
    the absent names of the required list, in its order, having called
    nothing but [Gst.init] and the registry; no controller comes to be, so
    [start_pipeline] is not reached. *)
Theorem init_missing_plugins (eng : Engine) (stun turn : option (list text))
    (enc : option text) :
  missing_plugins eng <> [] ->
  init eng stun turn enc
  = (Raise (GSTWebRTCAppError (Missing_plugins (missing_plugins eng))),
     Gst_init :: map find_plugin required) /\
  classify (Missing_plugins (missing_plugins eng)) = ConfigurationError /\
  (forall p, In p (missing_plugins eng) <->
             In p required /\ has_plugin eng p = false) /\
  existsb setup_call (Gst_init :: map find_plugin required) = false.
Proof.
  intros H. rewrite init_run.
  destruct (missing_plugins eng) eqn:E; [congruence|]. rewrite <- E.
  split; [reflexivity|]. split; [reflexivity|]. split; [|reflexivity].
  intros p. unfold missing_plugins. rewrite filter_In.
  destruct (has_plugin eng p); simpl; intuition congruence.
Qed.

Lemma init_missing_plugins_witness :
  missing_plugins engine_without_nice <> [] /\
  init engine_without_nice None None None
  = (Raise (GSTWebRTCAppError (Missing_plugins ["nice"%string])),
     Gst_init :: map find_plugin required).
Proof.
  split; [discriminate|].
  apply (init_missing_plugins engine_without_nice None None None).
  discriminate.
Defined.

(** ** The offer handler *)

Lemma str_in_suffix p a b : str_in p (a ++ b) = false -> str_in p b = false.
Proof.
  intros H. destruct (str_in p b) eqn:E; [|reflexivity].
  now rewrite (str_in_right p a b E) in H.
Qed.

(** Without [rtx-time] in the text, the result has as many [;rtx-time=125]
    as the text has [apt=<n>]. *)
Lemma sub_apt_count decimal s :
  agrees_on_ascii decimal ->
  str_in (lit "rtx-time") s = false ->
  occurrences (lit ";rtx-time=125") (sub_apt decimal s)
  = tokens decimal (lit "apt=") s.
Proof.
  intros Hd. induction s as [s IH] using text_length_ind.
  intros Hs. destruct s as [|c s]; [reflexivity|].
  assert (Hrepl : forall s0 k,
            match_lit_digits decimal (lit "apt=") s0 = Some (S k) ->
            exists r, firstn (S k) s0 ++ lit ";rtx-time=125" = 97%N :: r).
  { intros s0 k E.
    destruct (match_lit_digits_inv _ _ _ _ E) as (ds & _ & _ & _ & _ & -> & _).
    now eexists. }
  pose proof (sub_head (match_lit_digits decimal (lit "apt="))
                (fun g1 => g1 ++ lit ";rtx-time=125") 97%N
                (lit ";rtx-time=125") (c :: s) Hrepl) as Hhead.
  unfold sub_apt in *. rewrite sub_cons in *.
  destruct (match_lit_digits decimal (lit "apt=") (c :: s)) as [[|k]|] eqn:E.
  - now apply match_lit_digits_positive in E.
  - assert (Hc0 : ~ In 97%N (lit "pt=")) by (cbv; intuition discriminate).
    assert (Hd0 : decimal 97%N = false) by now rewrite Hd.
    rewrite (tokens_match decimal (lit "apt=") (c :: s) (S k) 97%N (lit "pt=")
               eq_refl Hc0 Hd0 E).
    destruct (match_lit_digits_inv _ _ _ _ E)
      as (ds & rest & Hcs & (_ & Hds & _) & _ & -> & ->).
    cbn [fst] in Hds.
    rewrite <- !app_assoc, (app_assoc (lit "apt=")), occurrences_skip.
    + rewrite occurrences_self by (discriminate || reflexivity).
      f_equal. apply IH.
      * rewrite Hcs, !length_app. simpl. lia.
      * rewrite Hcs, app_assoc in Hs. now apply str_in_suffix in Hs.
    + apply never_starts_in_app.
      * now apply apart_avoids.
      * apply (never_starts_in_digits decimal); [|assumption].
        cbn. now rewrite Hd.
  - rewrite tokens_copy by assumption.
    set (out := sub (match_lit_digits decimal (lit "apt="))
                  (fun g1 => g1 ++ lit ";rtx-time=125") s) in *.
    change (occurrences (lit ";rtx-time=125") (c :: out))
      with ((if startswith (lit ";rtx-time=125") (c :: out) then 1 else 0)
            + occurrences (lit ";rtx-time=125") out).
    assert (G : startswith (lit ";rtx-time=125") (c :: out) = false).
    { apply not_true_is_false. intros G.
      apply Hhead in G; [|cbv; intuition discriminate].
      apply startswith_split in G. rewrite G in Hs.
      change (lit ";rtx-time=125")
        with ([59%N] ++ lit "rtx-time" ++ lit "=125") in Hs.
      rewrite <- !app_assoc in Hs.
      now rewrite (str_in_infix [59%N] (lit "rtx-time")) in Hs. }
    rewrite G. apply IH; [simpl; lia|].
    now apply (str_in_suffix _ [c]) in Hs.
Qed.

(** C4: an offer that has no [rtx-time] in it is cut at its [apt=<n>]
    occurrences, all of them and each with its whole number; the step writes
    [;rtx-time=125] right after each and copies everything else, so that
    the result has as many [;rtx-time=125] as the offer has [apt=<n>]; and
    this is the text the handler gives to [on_sdp], put through the H.264
    step first if the encoder has [264] in its name.  The handler returns
    when what the hook gave can be awaited, and raises a [TypeError] after
    the hook's call when it cannot, as with the hook of [__init__]. *)
Theorem rtx_time_inserted (eng : Engine) (s : machine) (offer : text) :
  agrees_on_ascii (decimal eng) ->
  str_in (lit "rtx-time") offer = false ->
  exists before toks,
    offer = weave (fun n => lit "apt=" ++ n) before toks /\
    rtx_time_step (decimal eng) offer
      = weave (fun n => (lit "apt=" ++ n) ++ lit ";rtx-time=125") before toks /\
    Forall (whole_number (decimal eng)) toks /\
    length toks = tokens (decimal eng) (lit "apt=") offer /\
    occurrences (lit ";rtx-time=125") (rtx_time_step (decimal eng) offer)
      = tokens (decimal eng) (lit "apt=") offer /\
    (forall w enc,
       webrtcbin (self s) = Some w -> encoder (self s) = Some enc ->
       on_offer_created eng offer s
       = (if on_sdp_awaitable eng then Return tt else Raise TypeError, s,
          [emit w (set_local_description offer); promise_interrupt;
           on_sdp (lit "offer")
             (let sdp_text :=
                weave (fun n => (lit "apt=" ++ n) ++ lit ";rtx-time=125")
                  before toks in
              if str_in (lit "264") enc then h264_step sdp_text
              else sdp_text)])).
Proof.
  intros Hd Hs.
  assert (Hstep : rtx_time_step (decimal eng) offer = sub_apt (decimal eng) offer).
  { unfold rtx_time_step. now rewrite Hs. }
  destruct (sub_lit_digits_weave (decimal eng) (lit "apt=")
              (fun g1 => g1 ++ lit ";rtx-time=125") offer)
    as (before & toks & H1 & H2 & H3 & H4).
  fold (sub_apt (decimal eng) offer) in H2.
  exists before, toks. rewrite Hstep.
  split; [assumption|]. split; [assumption|]. split; [assumption|].
  split; [|split].
  - apply (H4 97%N (lit "pt=")); [reflexivity | | now rewrite Hd].
    cbv. intuition discriminate.
  - now apply sub_apt_count.
  - intros w enc Hw Henc.
    now rewrite on_offer_created_run, Hw, Henc, Hstep, H2.
Qed.

Lemma rtx_time_inserted_witness :
  agrees_on_ascii (decimal engine_ok) /\
  str_in (lit "rtx-time") offer_apt = false /\
  rtx_time_step ascii_digit offer_apt = lit "a=fmtp:97 apt=96;rtx-time=125" /\
  occurrences (lit ";rtx-time=125") (rtx_time_step ascii_digit offer_apt)
    = tokens ascii_digit (lit "apt=") offer_apt /\
  on_offer_created engine_ok offer_apt vp8_started
  = (Raise TypeError, vp8_started,
     [emit 1 (set_local_description offer_apt); promise_interrupt;
      on_sdp (lit "offer") (rtx_time_step ascii_digit offer_apt)]).
Proof.
  assert (Hd : agrees_on_ascii (decimal engine_ok)) by (intros c _; reflexivity).
  destruct (rtx_time_inserted engine_ok vp8_started offer_apt Hd eq_refl)
    as (before & toks & _ & H2 & _ & _ & H5 & H6).
  split; [exact Hd|]. split; [reflexivity|]. split; [reflexivity|].
  split; [exact H5|].
  change (rtx_time_step ascii_digit offer_apt)
    with (rtx_time_step (decimal engine_ok) offer_apt).
  rewrite H2. apply (H6 1 (lit "vp8enc")); reflexivity.
Defined.

(** C6, as the claim has it, fails: when the offer has no
    [level-asymmetry-allowed] either, the flag is written between the
    profile and [packetization-mode=1].  The hook being the one of
    [__init__], the handler raises after it has given the text to it. *)
Lemma profile_then_asymmetry :
  str_in (lit "264") (lit "x264enc") = true /\
  str_in profile_level_id offer_h264 = false /\
  occurrences packetization offer_h264 = 1 /\
  on_offer_created engine_ok offer_h264 x264_started
  = (Raise TypeError, x264_started,
     [emit 1 (set_local_description offer_h264); promise_interrupt;
      on_sdp (lit "offer") offer_h264_sent]) /\
  occurrences profile_mode offer_h264_sent = 0.
Proof. repeat split. Qed.

(** C6, amended: for an encoder with [264] in its name and an offer without
    [profile-level-id], the text given to [on_sdp] has, for every
    [packetization-mode=1] of the offer, one
    [profile-level-id=42e01f;packetization-mode=1] when the offer has
    [level-asymmetry-allowed] in it, and one
    [profile-level-id=42e01f;level-asymmetry-allowed=1;packetization-mode=1]
    when it has not.  The handler returns when what the hook gave can be
    awaited, and raises a [TypeError] after the hook's call when it
    cannot. *)
Theorem profile_level_id_injected (eng : Engine) (s : machine) (w : handle)
    (enc offer : text) :
  agrees_on_ascii (decimal eng) ->
  webrtcbin (self s) = Some w ->
  encoder (self s) = Some enc ->
  str_in (lit "264") enc = true ->
  str_in profile_level_id offer = false ->
  exists sdp_text,
    on_offer_created eng offer s
    = (if on_sdp_awaitable eng then Return tt else Raise TypeError, s,
       [emit w (set_local_description offer); promise_interrupt;
        on_sdp (lit "offer") sdp_text]) /\
    occurrences
      (if str_in level_asymmetry offer
       then profile_mode else profile_asymmetry_mode) sdp_text
    = occurrences packetization offer.
Proof.
  intros Hd Hw Henc H264 HP.
  rewrite on_offer_created_run, Hw, Henc, H264.
  eexists. split; [reflexivity|].
  now apply offer_text_counts.
Qed.

Lemma profile_level_id_injected_witness :
  agrees_on_ascii (decimal engine_ok) /\
  webrtcbin (self x264_started) = Some 1 /\
  encoder (self x264_started) = Some (lit "x264enc") /\
  str_in (lit "264") (lit "x264enc") = true /\
  str_in profile_level_id offer_h264 = false /\
  exists sdp_text,
    on_offer_created engine_ok offer_h264 x264_started
    = (Raise TypeError, x264_started,
       [emit 1 (set_local_description offer_h264); promise_interrupt;
        on_sdp (lit "offer") sdp_text]) /\
    occurrences
      (if str_in level_asymmetry offer_h264
       then profile_mode else profile_asymmetry_mode) sdp_text
    = occurrences packetization offer_h264.
Proof.
  assert (Hd : agrees_on_ascii (decimal engine_ok)) by (intros c _; reflexivity).
  split; [exact Hd|].
  split; [reflexivity|]. split; [reflexivity|].
  split; [reflexivity|]. split; [reflexivity|].
  apply (profile_level_id_injected engine_ok x264_started 1 (lit "x264enc")
           offer_h264 Hd); reflexivity.
Defined.

(** C10: a controller constructed without an encoder has [None] for it;
    the handler then raises on the test of the encoder name, a [TypeError]
    when the transport element is there, after the local description and
    before [on_sdp], which is not called; and the handler returns only if
    the encoder is a text. *)
Theorem offer_without_encoder (eng : Engine) (s : machine) (offer : text) :
  (forall stun turn a l,
     init eng stun turn None = (Return a, l) -> encoder a = None) /\
  (encoder (self s) = None ->
   exists e l,
     on_offer_created eng offer s = (Raise e, s, l) /\
     existsb is_on_sdp l = false /\
     (forall w, webrtcbin (self s) = Some w ->
        e = TypeError /\
        l = [emit w (set_local_description offer); promise_interrupt])) /\
  (forall s1 l,
     on_offer_created eng offer s = (Return tt, s1, l) ->
     exists enc, encoder (self s) = Some enc).
Proof.
  split; [|split].
  - intros stun turn a l. rewrite init_run.
    destruct (missing_plugins eng); [|discriminate].
    intros H. injection H as <- _. reflexivity.
  - intros H. rewrite on_offer_created_run, H.
    destruct (webrtcbin (self s)) as [w|]; eexists; eexists;
      (split; [reflexivity|]); split; try reflexivity.
    + intros w' H'. injection H' as <-. split; reflexivity.
    + discriminate.
  - intros s1 l. rewrite on_offer_created_run.
    destruct (webrtcbin (self s)); [|discriminate].
    destruct (encoder (self s)) as [enc|]; [|discriminate].
    intros _. now exists enc.
Qed.

Lemma offer_without_encoder_witness :
  init engine_ok None None None
  = (Return default_app, Gst_init :: map find_plugin required) /\
  encoder (self default_started) = None /\
  webrtcbin (self default_started) = Some 1 /\
  exists e l,
    on_offer_created engine_ok offer_apt default_started
    = (Raise e, default_started, l) /\
    existsb is_on_sdp l = false /\
    (forall w, webrtcbin (self default_started) = Some w ->
       e = TypeError /\
       l = [emit w (set_local_description offer_apt); promise_interrupt]).
Proof.
  split; [reflexivity|]. split; [reflexivity|]. split; [reflexivity|].
  apply (proj1 (proj2 (offer_without_encoder engine_ok default_started
                         offer_apt))).
  reflexivity.
Defined.

(** ** Histories of requests *)

Lemma app_split_call (l1 l2 pre post : list call) c :
  l1 ++ l2 = pre ++ c :: post ->
  (exists post1, l1 = pre ++ c :: post1 /\ post = post1 ++ l2) \/
  (exists pre2, pre = l1 ++ pre2 /\ l2 = pre2 ++ c :: post).
Proof.
  revert pre; induction l1 as [|x l1 IH]; intros pre H.
  - right. now exists pre.
  - destruct pre as [|y pre]; simpl in H; injection H as -> H.
    + left. now exists l1.
    + destruct (IH _ H) as [(post1 & -> & ->) | (pre2 & -> & ->)].
      * left. now exists post1.
      * right. now exists pre2.
Qed.

Lemma split_call_in (l pre post : list call) c P :
  forallb P l = true -> l = pre ++ c :: post -> P c = true.
Proof.
  intros H ->. rewrite forallb_app in H.
  apply andb_true_iff in H as [_ H]. simpl in H.
  now apply andb_true_iff in H as [H _].
Qed.

Section History.
Variable eng : Engine.

(** One request: [on_sdp] comes right after the local description of its
    round; a remote description goes to the transport element that is
    there; and a transport element that is there afterwards was there
    before or has just been made. *)
Lemma serve_step r s :
  let l1 := snd (serve eng r s) in
  let s1 := snd (fst (serve eng r s)) in
  (forall pre t x post, l1 = pre ++ on_sdp t x :: post ->
     exists pre' w offer,
       pre = pre' ++ [emit w (set_local_description offer); promise_interrupt]
       /\ t = lit "offer") /\
  (forall pre w answer post,
     l1 = pre ++ emit w (set_remote_description answer) :: post ->
     webrtcbin (self s) = Some w) /\
  (forall w, webrtcbin (self s1) = Some w ->
     webrtcbin (self s) = Some w \/
     In (ElementFactory_make "webrtcbin" "app" (Some w)) l1).
Proof.
  destruct r as [| |ty sdp|i c|w0|offer|i c|pad_name]; cbn [serve]; cbv zeta.
  - destruct (start_pipeline_shape eng s) as (r & s1 & l & -> & _ & Hl & _ & Hw).
    cbn [fst snd]. repeat split.
    + intros pre t x post H.
      pose proof (split_call_in (Pipeline_new (created s) :: l) pre post
                    (on_sdp t x) setup_call) as G.
      simpl in G. rewrite Hl in G. discriminate (G eq_refl H).
    + intros pre w ans post H.
      pose proof (split_call_in (Pipeline_new (created s) :: l) pre post
                    (emit w (set_remote_description ans)) setup_call) as G.
      simpl in G. rewrite Hl in G. discriminate (G eq_refl H).
    + intros w H. right. right. now apply Hw.
  - rewrite stop_pipeline_run. cbn [fst snd]. repeat split.
    + intros pre t x post H. exfalso.
      assert (G : In (on_sdp t x) (pre ++ on_sdp t x :: post))
        by apply in_elt.
      rewrite <- H in G.
      destruct (pipeline (self s)), (webrtcbin (self s)), (fakesink (self s));
        simpl in G; intuition discriminate.
    + intros pre w ans post H. exfalso.
      assert (G : In (emit w (set_remote_description ans))
                    (pre ++ emit w (set_remote_description ans) :: post))
        by apply in_elt.
      rewrite <- H in G.
      destruct (pipeline (self s)), (webrtcbin (self s)), (fakesink (self s));
        simpl in G; intuition discriminate.
    + discriminate.
  - rewrite set_sdp_run.
    destruct (webrtcbin (self s)) as [w0|] eqn:E;
      [destruct (text_eqb ty (lit "answer"))|]; cbn [fst snd]; repeat split;
      try (intros pre t x post H; destruct pre as [|? [|? [|? ?]]];
           discriminate H);
      try (intros pre w ans post H; destruct pre as [|? [|? [|? ?]]];
           try discriminate H; injection H as -> _ _; reflexivity);
      try (intros w H; left; congruence).
  - rewrite set_ice_run.
    destruct (webrtcbin (self s)) as [w0|] eqn:E; cbn [fst snd]; repeat split;
      try (intros pre t x post H; destruct pre as [|? [|? ?]];
           discriminate H);
      try (intros pre w ans post H; destruct pre as [|? [|? ?]];
           discriminate H);
      try (intros w H; left; congruence).
  - cbn. repeat split.
    + intros pre t x post H; destruct pre as [|? [|? ?]]; discriminate H.
    + intros pre w ans post H; destruct pre as [|? [|? ?]]; discriminate H.
    + intros w H. now left.
  - rewrite on_offer_created_run.
    destruct (webrtcbin (self s)) as [w0|] eqn:E;
      [destruct (encoder (self s)) as [enc|]|]; cbn [fst snd]; repeat split;
      try (intros pre w ans post H; destruct pre as [|? [|? [|? [|? ?]]]];
           discriminate H);
      try (intros w H; left; congruence);
      intros pre t x post H; destruct pre as [|? [|? [|? [|? ?]]]];
      try discriminate H.
    injection H as <- <- <- _ _. now exists [], w0, offer.
  - rewrite send_ice_run. cbn [fst snd]. repeat split.
    + intros pre t x post H; destruct pre as [|? [|? ?]]; discriminate H.
    + intros pre w ans post H; destruct pre as [|? [|? ?]]; discriminate H.
    + intros w H. now left.
  - destruct (handle_webcam_stream_run eng pad_name s) as (r & l & -> & Hl).
    cbn [fst snd self]. repeat split.
    + intros pre t x post H.
      discriminate (split_call_in l pre post (on_sdp t x) setup_call Hl H).
    + intros pre w ans post H.
      discriminate (split_call_in l pre post
                      (emit w (set_remote_description ans)) setup_call Hl H).
    + intros w H. now left.
Qed.

Lemma run_cons r rs s :
  run ((eng, r) :: rs) s =
  (fst (run rs (snd (fst (serve eng r s)))),
   snd (serve eng r s) ++ snd (run rs (snd (fst (serve eng r s))))).
Proof.
  simpl. destruct (serve eng r s) as [[res s1] l1]. simpl.
  destruct (run rs s1). reflexivity.
Qed.

(** Nothing but [start_pipeline] makes a transport element. *)
Lemma serve_keeps_no_transport r s :
  is_start (eng, r) = false -> webrtcbin (self s) = None ->
  webrtcbin (self (snd (fst (serve eng r s)))) = None.
Proof.
  intros Hr Hs.
  destruct r as [| |ty sdp|i c|w0|offer|i c|pad_name]; cbn [serve];
    try discriminate.
  - now rewrite stop_pipeline_run.
  - now rewrite set_sdp_run, Hs.
  - now rewrite set_ice_run, Hs.
  - assumption.
  - now rewrite on_offer_created_run, Hs.
  - now rewrite send_ice_run.
  - now destruct (handle_webcam_stream_run eng pad_name s) as (r & l & -> & _).
Qed.

(** No request puts a sink into [self.fakesink]. *)
Lemma serve_keeps_no_sink r s :
  fakesink (self s) = None ->
  fakesink (self (snd (fst (serve eng r s)))) = None.
Proof.
  intros Hs.
  destruct r as [| |ty sdp|i c|w0|offer|i c|pad_name]; cbn [serve].
  - rewrite start_pipeline_run. cbv zeta.
    now destruct (has_factory eng "webrtcbin").
  - now rewrite stop_pipeline_run.
  - rewrite set_sdp_run. destruct (webrtcbin (self s)); [|assumption].
    now destruct (text_eqb ty (lit "answer")).
  - rewrite set_ice_run. now destruct (webrtcbin (self s)).
  - assumption.
  - rewrite on_offer_created_run. destruct (webrtcbin (self s)); [|assumption].
    now destruct (encoder (self s)).
  - now rewrite send_ice_run.
  - now destruct (handle_webcam_stream_run eng pad_name s) as (r & l & -> & _).
Qed.

End History.

(** On a controller as [__init__] leaves it, whatever is asked of it,
    [self.fakesink] stays [None]: [stop_pipeline] has no sink to release. *)
Lemma run_keeps_no_sink rs s :
  fakesink (self s) = None -> fakesink (self (fst (run rs s))) = None.
Proof.
  revert s; induction rs as [|[eng r] rs IH]; intros s Hs; [assumption|].
  rewrite run_cons. cbn [fst]. apply IH. now apply serve_keeps_no_sink.
Qed.

Lemma run_keeps_no_transport rs s :
  existsb is_start rs = false -> webrtcbin (self s) = None ->
  webrtcbin (self (fst (run rs s))) = None.
Proof.
  revert s; induction rs as [|[eng r] rs IH]; intros s Hrs Hs; [assumption|].
  simpl in Hrs. apply orb_false_iff in Hrs as [Hr Hrs].
  rewrite run_cons. cbn [fst]. apply IH; [assumption|].
  now apply serve_keeps_no_transport.
Qed.


(** C7, as the claim has it, fails: an answer given right after the start is
    applied as the remote description though no offer was made, let alone
    applied as the local description. *)
Lemma remote_description_without_offer :
  snd (run early_answer (boot x264_app))
  = [Pipeline_new 0; ElementFactory_make "webrtcbin" "app" (Some 1);
     set_property 1 "bundle-policy" (lit "max-compat");
     connect 1 "on-negotiation-needed"; connect 1 "on-ice-candidate";
     connect 1 "pad-added"; pipeline_add 0 1; emit 1 add_transceiver;
     set_state 0 PLAYING;
     emit 1 (set_remote_description (lit "v=0")); promise_interrupt] /\
  existsb is_remote_description (snd (run early_answer (boot x264_app)))
  = true /\
  existsb is_local_description (snd (run early_answer (boot x264_app)))
  = false.
Proof. repeat split. Qed.

(** C7, amended: in every history of requests, a call of [on_sdp] has type
    [offer] and comes right after the local description of its round was
    given to the engine; and a remote description is given only to a
    transport element that exists: the one the history began with, or one
    made earlier in it.  Nothing asks for a local offer before it. *)
Theorem negotiation_order (rs : list (Engine * request)) (s : machine) :
  (forall pre t x post,
     snd (run rs s) = pre ++ on_sdp t x :: post ->
     exists pre' w offer,
       pre = pre' ++ [emit w (set_local_description offer); promise_interrupt]
       /\ t = lit "offer") /\
  (forall pre w answer post,
     snd (run rs s) = pre ++ emit w (set_remote_description answer) :: post ->
     webrtcbin (self s) = Some w \/
     In (ElementFactory_make "webrtcbin" "app" (Some w)) pre).
Proof.
  revert s; induction rs as [|[eng r] rs IH]; intros s.
  - split; intros pre; intros; destruct pre; discriminate.
  - rewrite run_cons. cbn [snd].
    destruct (serve_step eng r s) as (Ha & Hb & Hc).
    destruct (IH (snd (fst (serve eng r s)))) as [IHa IHb].
    split.
    + intros pre t x post H.
      destruct (app_split_call _ _ _ _ _ H)
        as [(post1 & H1 & _) | (pre2 & -> & H2)].
      * exact (Ha _ _ _ _ H1).
      * destruct (IHa _ _ _ _ H2) as (pre' & w & offer & -> & ->).
        exists (snd (serve eng r s) ++ pre'), w, offer.
        now rewrite app_assoc.
    + intros pre w ans post H.
      destruct (app_split_call _ _ _ _ _ H)
        as [(post1 & H1 & _) | (pre2 & -> & H2)].
      * left. exact (Hb _ _ _ _ H1).
      * destruct (IHb _ _ _ _ H2) as [G | G].
        -- destruct (Hc _ G) as [G' | G']; [now left|].
           right. apply in_or_app. now left.
        -- right. apply in_or_app. now right.
Qed.

Lemma negotiation_order_witness :
  snd (run (under engine_ok [Offer_created offer_apt]) x264_started)
  = [emit 1 (set_local_description offer_apt); promise_interrupt]
    ++ on_sdp (lit "offer") (lit "a=fmtp:97 apt=96;rtx-time=125") :: [] /\
  exists pre' w offer,
    [emit 1 (set_local_description offer_apt); promise_interrupt]
    = pre' ++ [emit w (set_local_description offer); promise_interrupt]
    /\ lit "offer" = lit "offer".
Proof.
  split; [reflexivity|].
  apply (proj1 (negotiation_order (under engine_ok [Offer_created offer_apt])
                  x264_started)
           [emit 1 (set_local_description offer_apt); promise_interrupt]
           (lit "offer") (lit "a=fmtp:97 apt=96;rtx-time=125") []).
  reflexivity.
Defined.

(** C8: without a transport element [set_ice] fails with the not-started
    error and calls nothing; with one, the candidate goes to the engine as it
    came.  A new controller has no transport element, and no history without
    [start_pipeline] gives it one. *)
Theorem set_ice_guard (eng : Engine) (s : machine) (mlineindex : Z)
    (candidate : text) :
  set_ice mlineindex candidate s =
  match webrtcbin (self s) with
  | None => (Raise (GSTWebRTCAppError ICE_before_session), s, [])
  | Some w => (Return tt, s, [emit w (add_ice_candidate mlineindex candidate)])
  end /\
  classify ICE_before_session = InvalidStateError /\
  (forall stun turn enc a l rs,
     init eng stun turn enc = (Return a, l) ->
     existsb is_start rs = false ->
     set_ice mlineindex candidate (fst (run rs (boot a)))
     = (Raise (GSTWebRTCAppError ICE_before_session),
        fst (run rs (boot a)), [])).
Proof.
  split; [apply set_ice_run|]. split; [reflexivity|].
  intros stun turn enc a l rs Hinit Hrs.
  rewrite set_ice_run, run_keeps_no_transport; try assumption; [reflexivity|].
  rewrite init_run in Hinit.
  destruct (missing_plugins eng); [|discriminate].
  injection Hinit as <- _. reflexivity.
Qed.

Lemma set_ice_guard_witness :
  init engine_ok None None (Some (lit "x264enc"))
  = (Return x264_app, Gst_init :: map find_plugin required) /\
  existsb is_start never_started = false /\
  set_ice 0 (lit "candidate:1 1 UDP") (fst (run never_started (boot x264_app)))
  = (Raise (GSTWebRTCAppError ICE_before_session),
     fst (run never_started (boot x264_app)), []).
Proof.
  split; [reflexivity|]. split; [reflexivity|].
  apply (proj2 (proj2 (set_ice_guard engine_ok (boot x264_app) 0
                         (lit "candidate:1 1 UDP")))
           None None (Some (lit "x264enc")) x264_app
           (Gst_init :: map find_plugin required) never_started);
    reflexivity.
Defined.

(** * Further properties of the controller *)

(** ** The text steps *)

Lemma str_in_split p s :
  str_in p s = true -> exists a b, s = a ++ p ++ b.
Proof.
  induction s as [|c s IH]; simpl; intros H.
  - rewrite orb_false_r in H. apply startswith_nil_r in H. subst p.
    now exists [], [].
  - apply orb_true_iff in H as [H | H].
    + apply startswith_split in H. exists [], (skipn (length p) (c :: s)).
      exact H.
    + destruct (IH H) as (a & b & ->). now exists (c :: a), b.
Qed.

Lemma str_in_app_r a p s : str_in (a ++ p) s = true -> str_in p s = true.
Proof.
  intros H. destruct (str_in_split _ _ H) as (x & y & ->).
  rewrite <- app_assoc, app_assoc. apply str_in_infix.
Qed.

Lemma str_in_cons_false p c s :
  str_in p (c :: s) = false ->
  startswith p (c :: s) = false /\ str_in p s = false.
Proof. simpl. intros H. now apply orb_false_iff in H. Qed.

Section ReplaceMore.
Variables old new : text.
Hypothesis old_not_empty : old <> [].

(** Where [old] does not occur nothing is replaced. *)
Lemma str_replace_absent s :
  str_in old s = false -> str_replace old new s = s.
Proof.
  induction s as [|c s IH]; intros H; [reflexivity|].
  apply str_in_cons_false in H as [H1 H2].
  rewrite str_replace_copy by assumption. now rewrite IH.
Qed.

(** Where [old] occurs, [new] is in the result. *)
Lemma str_replace_present s :
  str_in old s = true -> str_in new (str_replace old new s) = true.
Proof.
  induction s as [s IH] using text_length_ind.
  intros H. destruct s as [|c s].
  - simpl in H. rewrite orb_false_r in H. apply startswith_nil_r in H.
    congruence.
  - destruct (str_replace_cases old new old_not_empty c s)
      as [[Hc ->] | (rest & _ & _ & ->)].
    + simpl in H. rewrite Hc in H. simpl in H.
      apply (str_in_right new [c]). apply IH; [simpl; lia | assumption].
    + apply (str_in_infix [] new).
Qed.
End ReplaceMore.

Lemma tokens_none_sub decimal l repl s :
  tokens decimal l s = 0 -> sub (match_lit_digits decimal l) repl s = s.
Proof.
  induction s as [|c s IH]; intros H; [reflexivity|].
  change (tokens decimal l (c :: s))
    with ((if token_at decimal l (c :: s) then 1 else 0) + tokens decimal l s)
    in H.
  destruct (token_at decimal l (c :: s)) eqn:E; [discriminate|].
  apply match_lit_digits_token in E.
  rewrite sub_cons, E. f_equal. apply IH. exact H.
Qed.

Lemma h264_step_absent t :
  str_in packetization t = false -> h264_step t = t.
Proof.
  intros Hpm. unfold h264_step. fold packetization.
  rewrite (str_replace_absent packetization
             (lit "profile-level-id=42e01f;packetization-mode=1") t Hpm).
  assert (E : (if negb (str_in (lit "profile-level-id") t) then t else t) = t)
    by (destruct (str_in (lit "profile-level-id") t); reflexivity).
  rewrite E.
  rewrite (str_replace_absent packetization
             (lit "level-asymmetry-allowed=1;packetization-mode=1") t Hpm).
  destruct (str_in (lit "level-asymmetry-allowed") t); reflexivity.
Qed.

(** X1: in a text that has [profile-level-id] but no
    [level-asymmetry-allowed] the H.264 step does the second replacement
    only, and the result has one
    [level-asymmetry-allowed=1;packetization-mode=1] for every
    [packetization-mode=1] of the text. *)
Theorem level_asymmetry_injected (t : text) :
  str_in profile_level_id t = true ->
  str_in level_asymmetry t = false ->
  h264_step t = str_replace packetization asymmetry_mode t /\
  occurrences asymmetry_mode (h264_step t) = occurrences packetization t.
Proof.
  intros HP HL.
  assert (E : h264_step t = str_replace packetization asymmetry_mode t).
  { unfold h264_step.
    fold profile_level_id level_asymmetry packetization asymmetry_mode.
    rewrite HP. cbn [negb]. now rewrite HL. }
  split; [exact E|]. rewrite E.
  apply str_in_occurrences in HL.
  apply (str_replace_counts packetization asymmetry_mode) with
    (mark := level_asymmetry);
    solve [assumption | discriminate | vm_compute; reflexivity].
Qed.

Lemma level_asymmetry_injected_witness :
  str_in profile_level_id offer_has_profile = true /\
  str_in level_asymmetry offer_has_profile = false /\
  occurrences asymmetry_mode (h264_step offer_has_profile)
  = occurrences packetization offer_has_profile.
Proof.
  split; [reflexivity|]. split; [reflexivity|].
  apply (level_asymmetry_injected offer_has_profile); reflexivity.
Defined.

(** X2: the H.264 step applied to its own result changes nothing. *)
Theorem h264_step_idempotent (t : text) :
  h264_step (h264_step t) = h264_step t.
Proof.
  assert (Hne : packetization <> []) by discriminate.
  destruct (str_in packetization t) eqn:Hpm.
  - (* the result has both texts in it *)
    set (t1 := if negb (str_in profile_level_id t)
               then str_replace packetization profile_mode t else t).
    assert (E : h264_step t
                = if negb (str_in level_asymmetry t1)
                  then str_replace packetization asymmetry_mode t1 else t1)
      by reflexivity.
    assert (HP1 : str_in profile_level_id t1 = true).
    { unfold t1. destruct (str_in profile_level_id t) eqn:HP; simpl;
        [assumption|].
      apply (str_in_app_l profile_level_id (lit "=42e01f;packetization-mode=1")).
      now apply str_replace_present. }
    assert (Hpm1 : str_in packetization t1 = true).
    { unfold t1. destruct (str_in profile_level_id t); simpl; [assumption|].
      apply (str_in_app_r (lit "profile-level-id=42e01f;") packetization).
      now apply str_replace_present. }
    assert (HP2 : str_in profile_level_id (h264_step t) = true).
    { rewrite E. destruct (str_in level_asymmetry t1); simpl; [assumption|].
      rewrite <- HP1. apply str_in_same, str_replace_keeps_occurrences;
        solve [assumption | discriminate | vm_compute; reflexivity]. }
    assert (HL2 : str_in level_asymmetry (h264_step t) = true).
    { rewrite E. destruct (str_in level_asymmetry t1) eqn:HL; simpl;
        [assumption|].
      apply (str_in_app_l level_asymmetry (lit "=1;packetization-mode=1")).
      now apply str_replace_present. }
    unfold h264_step at 1.
    fold profile_level_id level_asymmetry.
    rewrite HP2. cbn [negb]. now rewrite HL2.
  - (* nothing to replace *)
    assert (E : h264_step t = t).
    { now apply h264_step_absent. }
    now rewrite !E.
Qed.

(** X3: the retransmission-time step neither makes nor breaks an occurrence
    of a text the H.264 step looks for; what the H.264 step does is decided
    by the offer as it came. *)
Theorem rtx_time_step_keeps_h264_texts (decimal : N -> bool) (s : text) :
  agrees_on_ascii decimal ->
  occurrences packetization (rtx_time_step decimal s)
  = occurrences packetization s /\
  str_in profile_level_id (rtx_time_step decimal s)
  = str_in profile_level_id s /\
  str_in level_asymmetry (rtx_time_step decimal s)
  = str_in level_asymmetry s.
Proof.
  intros Hd.
  assert (Hsame : forall p,
            In p [profile_level_id; level_asymmetry; packetization] ->
            occurrences p (rtx_time_step decimal s) = occurrences p s).
  { intros p Hp. apply rtx_time_step_keeps_occurrences; try assumption;
      simpl in Hp; decompose [or] Hp; subst; try tauto;
      vm_compute; intuition congruence. }
  split; [|split].
  - apply Hsame. simpl. tauto.
  - apply str_in_same, Hsame. simpl. tauto.
  - apply str_in_same, Hsame. simpl. tauto.
Qed.

Lemma rtx_time_step_keeps_h264_texts_witness :
  agrees_on_ascii ascii_digit /\
  occurrences packetization (rtx_time_step ascii_digit offer_h264)
  = occurrences packetization offer_h264.
Proof.
  split; [intros c _; reflexivity|].
  apply (rtx_time_step_keeps_h264_texts ascii_digit offer_h264).
  intros c _. reflexivity.
Defined.

(** X4: an offer with no [apt=<n>], no [rtx-time=<n>] and no
    [packetization-mode=1] in it goes through both steps unchanged, and the
    handler gives it to [on_sdp] as it came, whatever the encoder's name;
    it returns when what the hook gave can be awaited, and raises a
    [TypeError] after the hook's call when it cannot. *)
Theorem plain_offer_unchanged (eng : Engine) (s : machine) (w : handle)
    (enc offer : text) :
  tokens (decimal eng) (lit "apt=") offer = 0 ->
  tokens (decimal eng) (lit "rtx-time=") offer = 0 ->
  str_in packetization offer = false ->
  webrtcbin (self s) = Some w ->
  encoder (self s) = Some enc ->
  rtx_time_step (decimal eng) offer = offer /\
  h264_step offer = offer /\
  on_offer_created eng offer s
  = (if on_sdp_awaitable eng then Return tt else Raise TypeError, s,
     [emit w (set_local_description offer); promise_interrupt;
      on_sdp (lit "offer") offer]).
Proof.
  intros Hapt Hrtx Hpm Hw Henc.
  assert (E1 : rtx_time_step (decimal eng) offer = offer).
  { unfold rtx_time_step, sub_apt, sub_rtx.
    rewrite !tokens_none_sub by assumption.
    destruct (negb (str_in (lit "rtx-time") offer)),
      (negb (str_in (lit "rtx-time=125") offer)); reflexivity. }
  assert (E2 : h264_step offer = offer).
  { now apply h264_step_absent. }
  split; [exact E1|]. split; [exact E2|].
  rewrite on_offer_created_run, Hw, Henc, E1, E2.
  now destruct (str_in (lit "264") enc).
Qed.

Lemma plain_offer_unchanged_witness :
  tokens ascii_digit (lit "apt=") offer_plain = 0 /\
  tokens ascii_digit (lit "rtx-time=") offer_plain = 0 /\
  str_in packetization offer_plain = false /\
  on_offer_created engine_ok offer_plain x264_started
  = (Raise TypeError, x264_started,
     [emit 1 (set_local_description offer_plain); promise_interrupt;
      on_sdp (lit "offer") offer_plain]) /\
  on_offer_created engine_hosted offer_plain x264_started
  = (Return tt, x264_started,
     [emit 1 (set_local_description offer_plain); promise_interrupt;
      on_sdp (lit "offer") offer_plain]).
Proof.
  split; [reflexivity|]. split; [reflexivity|]. split; [reflexivity|].
  split.
  - apply (plain_offer_unchanged engine_ok x264_started 1 (lit "x264enc")
             offer_plain); reflexivity.
  - apply (plain_offer_unchanged engine_hosted x264_started 1
             (lit "x264enc") offer_plain); reflexivity.
Defined.

(** ** Construction, answers and start *)

Lemma text_eqb_eq a b : text_eqb a b = true <-> a = b.
Proof.
  revert b; induction a as [|x a IH]; intros [|y b]; simpl;
    try (split; (reflexivity || discriminate)).
  rewrite andb_true_iff, N.eqb_eq, IH.
  split; [intros [-> ->]; reflexivity | intros H; injection H; auto].
Qed.

Lemma missing_plugins_none eng :
  missing_plugins eng = [] <->
  (forall p, In p required -> has_plugin eng p = true).
Proof.
  unfold missing_plugins. split.
  - intros H p Hp. destruct (has_plugin eng p) eqn:E; [reflexivity|].
    assert (G : In p (filter (fun p => negb (has_plugin eng p)) required)).
    { apply filter_In. now rewrite E. }
    rewrite H in G. destruct G.
  - intros H. induction required as [|p l IH]; [reflexivity|].
    simpl. rewrite (H p) by now left. simpl.
    apply IH. intros q Hq. apply H. now right.
Qed.

(** X5: the controller is constructed exactly when each of the eight
    required plugins is in the registry; it then holds no pipeline, no
    transport element and no sink, keeps the servers and the encoder it was
    given, and has asked the registry for the eight names, in their order,
    and for nothing else. *)
Theorem init_returns (eng : Engine) (stun turn : option (list text))
    (enc : option text) :
  ((forall p, In p required -> has_plugin eng p = true) <->
   init eng stun turn enc
   = (Return (new_self stun turn enc), Gst_init :: map find_plugin required))
  /\
  (forall a l, init eng stun turn enc = (Return a, l) ->
     a = new_self stun turn enc /\
     pipeline a = None /\ webrtcbin a = None /\ fakesink a = None /\
     l = Gst_init :: map find_plugin required).
Proof.
  rewrite init_run, <- missing_plugins_none. split.
  - destruct (missing_plugins eng); split;
      (reflexivity || discriminate || congruence).
  - intros a l. destruct (missing_plugins eng); [|discriminate].
    intros H. injection H as <- <-. repeat split.
Qed.

(** X6: [set_sdp] never changes [self]; it returns exactly when the
    transport element exists and the type is [answer], letter for letter,
    and then it has given the text, as it came, to the element as its remote
    description; when it raises it has called nothing. *)
Theorem set_sdp_applies_answer (s : machine) (sdp_type sdp : text) :
  exists r l,
    set_sdp sdp_type sdp s = (r, s, l) /\
    (r = Return tt <->
     sdp_type = lit "answer" /\ webrtcbin (self s) <> None) /\
    (r = Return tt ->
     exists w, webrtcbin (self s) = Some w /\
       l = [emit w (set_remote_description sdp); promise_interrupt]) /\
    (r <> Return tt -> l = []).
Proof.
  rewrite set_sdp_run.
  destruct (webrtcbin (self s)) as [w|].
  - destruct (text_eqb sdp_type (lit "answer")) eqn:E.
    + apply text_eqb_eq in E. eexists. eexists. split; [reflexivity|].
      repeat split; try discriminate; try assumption.
      * intros _. now exists w.
      * intros H. now contradiction H.
    + eexists. eexists. split; [reflexivity|].
      repeat split; try discriminate.
      intros [H _]. apply text_eqb_eq in H. congruence.
  - eexists. eexists. split; [reflexivity|].
    repeat split; try discriminate. intros [_ H]. now contradiction H.
Qed.

Lemma stun_servers_set_app l1 l2 :
  stun_servers_set (l1 ++ l2) = stun_servers_set l1 ++ stun_servers_set l2.
Proof. apply flat_map_app. Qed.

Lemma turn_servers_added_app l1 l2 :
  turn_servers_added (l1 ++ l2)
  = turn_servers_added l1 ++ turn_servers_added l2.
Proof. apply flat_map_app. Qed.

Lemma turn_calls_relays w ts :
  stun_servers_set (map (fun t => emit w (add_turn_server t)) ts) = [] /\
  turn_servers_added (map (fun t => emit w (add_turn_server t)) ts) = ts.
Proof.
  induction ts as [|t ts [IH1 IH2]]; [now split|].
  split; [exact IH1|]. simpl. f_equal. exact IH2.
Qed.

(** X7: of the STUN servers the transport element is given the first one
    only, and none if the list is empty or absent; of the TURN servers it is
    given every one, in their order. *)
Theorem relays_configured (eng : Engine) (s : machine) :
  has_factory eng "webrtcbin" = true ->
  stun_servers_set (snd (start_pipeline eng s))
  = match stun_servers (self s) with
    | Some (first :: _) => [first]
    | _ => []
    end /\
  turn_servers_added (snd (start_pipeline eng s))
  = match turn_servers (self s) with
    | Some ts => ts
    | None => []
    end.
Proof.
  intros H. rewrite start_pipeline_run, H. cbv zeta. cbn [snd].
  rewrite !stun_servers_set_app, !turn_servers_added_app.
  unfold stun_calls, turn_calls.
  destruct (stun_servers (self s)) as [[|first ?]|];
    destruct (turn_servers (self s)) as [ts|];
    try destruct (turn_calls_relays (S (created s)) ts) as [-> ->];
    cbn; rewrite ?app_nil_r; now split.
Qed.

Lemma relays_configured_witness :
  has_factory engine_ok "webrtcbin" = true /\
  stun_servers_set
    (snd (start_pipeline engine_ok
            (boot (new_self (Some [lit "stun:a:1"; lit "stun:b:2"])
                     (Some [lit "turn://u:p@c:3"; lit "turn://u:p@d:4"])
                     None))))
  = [lit "stun:a:1"] /\
  turn_servers_added
    (snd (start_pipeline engine_ok
            (boot (new_self (Some [lit "stun:a:1"; lit "stun:b:2"])
                     (Some [lit "turn://u:p@c:3"; lit "turn://u:p@d:4"])
                     None))))
  = [lit "turn://u:p@c:3"; lit "turn://u:p@d:4"].
Proof.
  split; [reflexivity|].
  apply (relays_configured engine_ok
           (boot (new_self (Some [lit "stun:a:1"; lit "stun:b:2"])
                    (Some [lit "turn://u:p@c:3"; lit "turn://u:p@d:4"])
                    None))).
  reflexivity.
Defined.

(** X8: when the pipeline does not report [SUCCESS] on the way to
    [PLAYING], [start_pipeline] raises with the result reported and leaves
    the pipeline and the transport element in [self]: the session counts as
    started, candidates are taken and [stop_pipeline] releases both. *)
Theorem failed_start_keeps_handles (eng : Engine) (s : machine) :
  has_factory eng "webrtcbin" = true ->
  playing eng <> GST_STATE_CHANGE_SUCCESS ->
  exists s1 l,
    start_pipeline eng s
    = (Raise (GSTWebRTCAppError (Playing_failed (playing eng))), s1, l) /\
    pipeline (self s1) = Some (created s) /\
    webrtcbin (self s1) = Some (S (created s)) /\
    (forall i c,
       set_ice i c s1
       = (Return tt, s1, [emit (S (created s)) (add_ice_candidate i c)])) /\
    snd (stop_pipeline s1)
    = teardown (Some (created s)) ++ teardown (Some (S (created s)))
        ++ teardown (fakesink (self s)).
Proof.
  intros Hf Hp. rewrite start_pipeline_run, Hf. cbv zeta.
  eexists. eexists. split.
  - destruct (playing eng); try reflexivity. congruence.
  - split; [reflexivity|]. split; [reflexivity|]. split.
    + intros i c. now rewrite set_ice_run.
    + now rewrite stop_pipeline_run.
Qed.

Lemma failed_start_keeps_handles_witness :
  has_factory engine_async "webrtcbin" = true /\
  playing engine_async <> GST_STATE_CHANGE_SUCCESS /\
  exists s1 l,
    start_pipeline engine_async (boot x264_app)
    = (Raise (GSTWebRTCAppError (Playing_failed GST_STATE_CHANGE_ASYNC)),
       s1, l) /\
    pipeline (self s1) = Some 0 /\
    webrtcbin (self s1) = Some 1 /\
    (forall i c,
       set_ice i c s1 = (Return tt, s1, [emit 1 (add_ice_candidate i c)])) /\
    snd (stop_pipeline s1)
    = teardown (Some 0) ++ teardown (Some 1)
        ++ teardown (fakesink (self (boot x264_app))).
Proof.
  split; [reflexivity|]. split; [discriminate|].
  apply (failed_start_keeps_handles engine_async (boot x264_app));
    [reflexivity | discriminate].
Defined.

(** X9: when the engine has no [webrtcbin] factory, [start_pipeline] raises
    on the first use of the element it did not get: the pipeline is made
    and kept, there is no transport element, and nothing was added to the
    pipeline nor was its state changed. *)
Theorem start_without_factory (eng : Engine) (s : machine) :
  has_factory eng "webrtcbin" = false ->
  start_pipeline eng s
  = (Raise AttributeError,
     {| self := with_handles (self s) (Some (created s)) None;
        created := S (created s) |},
     [Pipeline_new (created s); ElementFactory_make "webrtcbin" "app" None]) /\
  (forall t sdp,
     set_sdp t sdp (snd (fst (start_pipeline eng s)))
     = (Raise (GSTWebRTCAppError SDP_before_session),
        snd (fst (start_pipeline eng s)), [])) /\
  snd (stop_pipeline (snd (fst (start_pipeline eng s))))
  = teardown (Some (created s)) ++ teardown (fakesink (self s)).
Proof.
  intros Hf. rewrite start_pipeline_run, Hf. cbv zeta.
  split; [reflexivity|]. split.
  - intros t sdp. now rewrite set_sdp_run.
  - now rewrite stop_pipeline_run.
Qed.

Lemma start_without_factory_witness :
  start_pipeline
    {| decimal := ascii_digit; has_plugin := fun _ => true;
       has_factory := fun _ => false; playing := GST_STATE_CHANGE_SUCCESS;
       links := true; on_sdp_awaitable := false;
       on_ice_awaitable := false |} (boot x264_app)
  = (Raise AttributeError,
     {| self := with_handles x264_app (Some 0) None; created := 1 |},
     [Pipeline_new 0; ElementFactory_make "webrtcbin" "app" None]).
Proof.
  apply (start_without_factory
           {| decimal := ascii_digit; has_plugin := fun _ => true;
              has_factory := fun _ => false;
              playing := GST_STATE_CHANGE_SUCCESS; links := true;
              on_sdp_awaitable := false; on_ice_awaitable := false |}
           (boot x264_app)).
  reflexivity.
Defined.

(** ** Pads, restarts and histories *)

(** X10: a pad with [sink] in its name is left alone.  For any other pad a
    new sink is made, added to the pipeline and linked from the transport
    element, in this order: before the start the method raises once the sink
    is made, and a link that fails raises after the sink was added.  [self]
    is as before in every case. *)
Theorem handle_webcam_stream_cases (eng : Engine) (pad_name : text)
    (s : machine) :
  handle_webcam_stream eng pad_name s =
  if str_in (lit "sink") pad_name then (Return tt, s, [])
  else if has_factory eng "fakesink" then
    (match pipeline (self s), webrtcbin (self s) with
     | None, _ => Raise AttributeError
     | Some _, None => Raise TypeError
     | Some _, Some _ =>
         if links eng then Return tt
         else Raise (GSTWebRTCAppError Link_failed)
     end,
     {| self := self s; created := S (created s) |},
     sink_calls (self s) (created s))
  else
    (match pipeline (self s) with
     | None => Raise AttributeError
     | Some _ => Raise TypeError
     end, s, [ElementFactory_make "fakesink" "fakesinkbroo" None]).
Proof.
  destruct s as [[stun turn p w enc f] n].
  unfold handle_webcam_stream, make, sink_calls.
  cbn [self created pipeline webrtcbin].
  destruct (str_in (lit "sink") pad_name); cbn [negb]; [reflexivity|].
  destruct (has_factory eng "fakesink"), p, w, (links eng); reflexivity.
Qed.

(** The state a request leaves. *)
Lemma serve_state eng r s :
  snd (fst (serve eng r s)) =
  match r with
  | Start_pipeline =>
      if has_factory eng "webrtcbin" then
        {| self := with_handles (self s) (Some (created s))
                     (Some (S (created s)));
           created := S (S (created s)) |}
      else
        {| self := with_handles (self s) (Some (created s)) None;
           created := S (created s) |}
  | Stop_pipeline => {| self := stopped (self s); created := created s |}
  | Pad_added pad_name =>
      {| self := self s;
         created := if negb (str_in (lit "sink") pad_name)
                       && has_factory eng "fakesink"
                    then S (created s) else created s |}
  | _ => s
  end.
Proof.
  destruct r as [| |ty sdp|i c|w0|offer|i c|pad_name]; cbn [serve].
  - rewrite start_pipeline_run. cbv zeta.
    now destruct (has_factory eng "webrtcbin").
  - now rewrite stop_pipeline_run.
  - rewrite set_sdp_run. destruct (webrtcbin (self s)); [|reflexivity].
    now destruct (text_eqb ty (lit "answer")).
  - rewrite set_ice_run. now destruct (webrtcbin (self s)).
  - reflexivity.
  - rewrite on_offer_created_run. destruct (webrtcbin (self s)); [|reflexivity].
    now destruct (encoder (self s)).
  - now rewrite send_ice_run.
  - now destruct (handle_webcam_stream_run eng pad_name s) as (r & l & -> & _).
Qed.

Lemma run_app rs1 rs2 s :
  run (rs1 ++ rs2) s =
  (fst (run rs2 (fst (run rs1 s))),
   snd (run rs1 s) ++ snd (run rs2 (fst (run rs1 s)))).
Proof.
  revert s; induction rs1 as [|[eng r] rs1 IH]; intros s.
  - simpl. now destruct (run rs2 s).
  - cbn [app]. rewrite !run_cons, IH. cbn [fst snd]. now rewrite app_assoc.
Qed.

Lemma serve_well_formed eng r s :
  well_formed s -> well_formed (snd (fst (serve eng r s))).
Proof.
  intros (Hf & Hp & Hw). rewrite serve_state. unfold well_formed.
  destruct r as [| |ty sdp|i c|w0|offer|i c|pad_name];
    try (split; [exact Hf|split; [exact Hp|exact Hw]]).
  - destruct (has_factory eng "webrtcbin"); cbn.
    + split; [exact Hf|]. split.
      * intros p [= <-]. lia.
      * intros w [= <-]. split; [lia|]. split; [reflexivity|discriminate].
    + split; [exact Hf|]. split.
      * intros p [= <-]. lia.
      * discriminate.
  - cbn. split; [reflexivity|]. split; discriminate.
  - cbn [self created]. split; [exact Hf|]. split.
    + intros p H. specialize (Hp p H). destruct (negb _ && _); lia.
    + intros w H. destruct (Hw w H) as (G1 & G2 & G3).
      split; [|split; assumption]. destruct (negb _ && _); lia.
Qed.

Lemma run_well_formed rs s :
  well_formed s -> well_formed (fst (run rs s)).
Proof.
  revert s; induction rs as [|[eng r] rs IH]; intros s H; [exact H|].
  rewrite run_cons. cbn [fst]. apply IH. now apply serve_well_formed.
Qed.

(** X11: whatever is asked of a new controller, in whatever order and
    whatever the engine answers, [self] holds handles of objects the engine
    made; a transport element is there only with the pipeline made right
    before it; and [self.fakesink] is [None]. *)
Theorem reachable_well_formed (rs : list (Engine * request))
    (stun turn : option (list text)) (enc : option text) :
  well_formed (fst (run rs (boot (new_self stun turn enc)))).
Proof.
  apply run_well_formed. repeat split; cbn; discriminate.
Qed.

Lemma on_ice_calls_app l1 l2 :
  on_ice_calls (l1 ++ l2) = on_ice_calls l1 ++ on_ice_calls l2.
Proof. apply flat_map_app. Qed.

Lemma create_offer_calls_app l1 l2 :
  create_offer_calls (l1 ++ l2)
  = create_offer_calls l1 ++ create_offer_calls l2.
Proof. apply flat_map_app. Qed.

Lemma setup_calls_silent l :
  forallb setup_call l = true ->
  on_ice_calls l = [] /\ create_offer_calls l = [] /\
  filter is_on_sdp l = [].
Proof.
  induction l as [|c l IH]; [now repeat split|].
  simpl. intros H. apply andb_true_iff in H as [Hc Hl].
  destruct (IH Hl) as (H1 & H2 & H3).
  destruct c as [| | | | | |h [| | | | |]| | | | | | |]; try discriminate;
    try destruct s; try discriminate; cbn; now rewrite ?H1, ?H2, ?H3.
Qed.

Lemma teardown_silent o :
  on_ice_calls (teardown o) = [] /\ create_offer_calls (teardown o) = [] /\
  filter is_on_sdp (teardown o) = [].
Proof. destruct o; now repeat split. Qed.

(** What one request contributes to the calls the host and the engine see. *)
Lemma serve_signals eng r s :
  on_ice_calls (snd (serve eng r s)) = candidates_found [(eng, r)] /\
  create_offer_calls (snd (serve eng r s)) = negotiations_needed [(eng, r)] /\
  length (filter is_on_sdp (snd (serve eng r s)))
  <= length (filter is_offer_created [(eng, r)]).
Proof.
  destruct r as [| |ty sdp|i c|w0|offer|i c|pad_name]; cbn [serve].
  - destruct (start_pipeline_shape eng s) as (r & s1 & l & -> & _ & Hl & _).
    cbn [snd].
    destruct (setup_calls_silent (Pipeline_new (created s) :: l) Hl)
      as (-> & -> & ->).
    repeat split. simpl. lia.
  - rewrite stop_pipeline_run. cbn [snd].
    rewrite !on_ice_calls_app, !create_offer_calls_app, !filter_app.
    destruct (teardown_silent (pipeline (self s))) as (-> & -> & ->).
    destruct (teardown_silent (webrtcbin (self s))) as (-> & -> & ->).
    destruct (teardown_silent (fakesink (self s))) as (-> & -> & ->).
    repeat split. simpl. lia.
  - rewrite set_sdp_run. destruct (webrtcbin (self s)); [|now repeat split].
    destruct (text_eqb ty (lit "answer")); repeat split; simpl; lia.
  - rewrite set_ice_run. destruct (webrtcbin (self s)); repeat split;
      simpl; lia.
  - repeat split. simpl. lia.
  - rewrite on_offer_created_run.
    destruct (webrtcbin (self s)); [|repeat split; simpl; lia].
    destruct (encoder (self s)); repeat split; simpl; lia.
  - rewrite send_ice_run. repeat split. simpl. lia.
  - destruct (handle_webcam_stream_run eng pad_name s) as (r & l & -> & Hl).
    cbn [snd]. destruct (setup_calls_silent _ Hl) as (-> & -> & ->).
    repeat split. simpl. lia.
Qed.

(** X12: in every history the host's [on_ice] is called once for each
    candidate the engine found, with its index and text as found and in the
    order found, and never otherwise; and [create-offer] is emitted once
    for each [on-negotiation-needed] signal, on the element that signalled,
    and never otherwise. *)
Theorem signals_forwarded (rs : list (Engine * request)) (s : machine) :
  on_ice_calls (snd (run rs s)) = candidates_found rs /\
  create_offer_calls (snd (run rs s)) = negotiations_needed rs.
Proof.
  revert s; induction rs as [|[eng r] rs IH]; intros s; [now split|].
  rewrite run_cons. cbn [snd].
  rewrite on_ice_calls_app, create_offer_calls_app.
  destruct (IH (snd (fst (serve eng r s)))) as [-> ->].
  destruct (serve_signals eng r s) as (-> & -> & _).
  unfold candidates_found, negotiations_needed. cbn [flat_map].
  rewrite !app_nil_r. now split.
Qed.

(** X13: in every history [on_sdp] is called at most once for each offer
    the engine created, and never otherwise. *)
Theorem on_sdp_per_offer (rs : list (Engine * request)) (s : machine) :
  length (filter is_on_sdp (snd (run rs s)))
  <= length (filter is_offer_created rs).
Proof.
  revert s; induction rs as [|[eng r] rs IH]; intros s; [simpl; lia|].
  rewrite run_cons. cbn [snd]. rewrite filter_app, length_app.
  destruct (serve_signals eng r s) as (_ & _ & H).
  specialize (IH (snd (fst (serve eng r s)))).
  change ((eng, r) :: rs) with ([(eng, r)] ++ rs).
  rewrite filter_app, length_app. lia.
Qed.

Lemma serve_keeps_configuration eng r s :
  stopped (self (snd (fst (serve eng r s)))) = stopped (self s).
Proof.
  rewrite serve_state.
  destruct r as [| |ty sdp|i c|w0|offer|i c|pad_name]; try reflexivity.
  now destruct (has_factory eng "webrtcbin").
Qed.

Lemma run_keeps_configuration rs s :
  stopped (self (fst (run rs s))) = stopped (self s).
Proof.
  revert s; induction rs as [|[eng r] rs IH]; intros s; [reflexivity|].
  rewrite run_cons. cbn [fst]. rewrite IH. apply serve_keeps_configuration.
Qed.

Lemma run_keeps_stopped rs s a :
  existsb is_start rs = false -> self s = stopped a ->
  self (fst (run rs s)) = stopped a.
Proof.
  revert s; induction rs as [|[eng r] rs IH]; intros s Hrs Hs; [assumption|].
  simpl in Hrs. apply orb_false_iff in Hrs as [Hr Hrs].
  rewrite run_cons. cbn [fst]. apply IH; [assumption|].
  rewrite serve_state.
  destruct r as [| |ty sdp|i c|w0|offer|i c|pad_name];
    try discriminate; try assumption.
  cbn [self]. now rewrite Hs.
Qed.

(** X14: whatever came before it, [stop_pipeline] leaves [self] without
    handles and with the relays and the encoder it was made with, and so
    [self] stays until the next [start_pipeline]: no other request gives it
    a handle or changes its configuration. *)
Theorem stopped_until_start (before after : list (Engine * request))
    (eng : Engine) (s : machine) :
  existsb is_start after = false ->
  self (fst (run (before ++ (eng, Stop_pipeline) :: after) s))
  = stopped (self s).
Proof.
  intros H. rewrite run_app. cbn [fst]. rewrite run_cons. cbn [fst].
  apply run_keeps_stopped; [assumption|].
  rewrite serve_state. cbn [self]. apply run_keeps_configuration.
Qed.

Lemma stopped_until_start_witness :
  self (fst (run (under engine_ok [Start_pipeline; Pad_added (lit "src_0")]
                  ++ (engine_ok, Stop_pipeline)
                     :: under engine_ok
                          [Ice_candidate 0 (lit "candidate:1");
                           Set_ice 0 (lit "candidate:2")])
               (boot x264_app)))
  = stopped x264_app.
Proof.
  apply (stopped_until_start
           (under engine_ok [Start_pipeline; Pad_added (lit "src_0")])
           (under engine_ok [Ice_candidate 0 (lit "candidate:1");
                             Set_ice 0 (lit "candidate:2")])
           engine_ok (boot x264_app)).
  reflexivity.
Defined.

Lemma stun_calls_fresh h w a :
  h <> w -> existsb (call_on h) (stun_calls w a) = false.
Proof.
  intros H. apply Nat.eqb_neq in H. unfold stun_calls.
  destruct (stun_servers a) as [[|st l]|]; try reflexivity.
  cbn. now rewrite H.
Qed.

Lemma turn_calls_fresh h w a :
  h <> w -> existsb (call_on h) (turn_calls w a) = false.
Proof.
  intros H. apply Nat.eqb_neq in H. unfold turn_calls.
  destruct (turn_servers a) as [l|]; [|reflexivity].
  induction l as [|t l IH]; [reflexivity|]. cbn. now rewrite H.
Qed.

(** X15: [start_pipeline] does not release what [self] holds.  In a start
    and the stop after it every call is on an object this start made: an
    object made before it, such as the pipeline and the transport element of
    an earlier start, is neither stopped nor unparented. *)
Theorem restart_forgets_handles (eng : Engine) (s : machine) (h : handle) :
  fakesink (self s) = None -> h < created s ->
  existsb (call_on h)
    (snd (run (under eng [Start_pipeline; Stop_pipeline]) s)) = false.
Proof.
  intros Hf Hh. unfold under. cbn [map]. rewrite !run_cons. cbn [snd serve].
  rewrite (start_pipeline_run eng s). cbv zeta.
  assert (H0 : Nat.eqb h (created s) = false) by (apply Nat.eqb_neq; lia).
  assert (H1 : Nat.eqb h (S (created s)) = false)
    by (apply Nat.eqb_neq; lia).
  destruct (has_factory eng "webrtcbin"); cbn [fst snd];
    rewrite stop_pipeline_run; cbn [snd self with_handles pipeline webrtcbin
                                    fakesink];
    rewrite Hf; cbn [run snd teardown app]; rewrite ?app_nil_r;
    repeat (rewrite ?existsb_app; cbn [existsb call_on orb];
            rewrite ?stun_calls_fresh, ?turn_calls_fresh by lia;
            rewrite ?H0, ?H1);
    reflexivity.
Qed.

Lemma restart_forgets_handles_witness :
  existsb (call_on 0)
    (snd (run (under engine_ok [Start_pipeline; Stop_pipeline])
            x264_started)) = false /\
  existsb (call_on 1)
    (snd (run (under engine_ok [Start_pipeline; Stop_pipeline])
            x264_started)) = false /\
  pipeline (self x264_started) = Some 0 /\
  webrtcbin (self x264_started) = Some 1.
Proof.
  split; [|split].
  - apply (restart_forgets_handles engine_ok x264_started 0);
      [reflexivity | vm_compute; lia].
  - apply (restart_forgets_handles engine_ok x264_started 1);
      [reflexivity | vm_compute; lia].
  - split; reflexivity.
Defined.

(** ** The bus loop *)

Lemma bus_call_run a msg :
  bus_call a msg =
  (negb (ends_loop msg),
   if is_latency msg
   then match pipeline a with
        | Some p => [recalculate_latency p]
        | None => []
        end
   else []).
Proof.
  destruct msg as [| |[|] [| | | |] [| | | |]| |]; try reflexivity.
  simpl. now destruct (pipeline a).
Qed.

Lemma drain_run a running pending :
  drain a running pending =
  (running && negb (existsb ends_loop pending),
   match pipeline a with
   | Some p =>
       repeat (recalculate_latency p) (length (filter is_latency pending))
   | None => []
   end).
Proof.
  revert running; induction pending as [|msg rest IH]; intros running.
  - simpl. rewrite andb_true_r. now destruct (pipeline a).
  - cbn [drain]. rewrite bus_call_run, IH. cbn [existsb filter].
    f_equal.
    + destruct (ends_loop msg), running; reflexivity.
    + destruct (is_latency msg), (pipeline a); reflexivity.
Qed.

(** X16: the inner loop of [handle_bus_calls] handles every pending message,
    also those behind a message that ends the loop: the loop goes on after
    the round when none of them is an end of stream, an error, or the
    pipeline's change from paused to ready; and the latency is recalculated
    once for each latency message, when [self] holds a pipeline. *)
Theorem drain_all (a : GSTWebRTCApp) (running : bool)
    (pending : list message) :
  fst (drain a running pending)
  = running && forallb (fun msg => negb (ends_loop msg)) pending /\
  filter is_recalculate (snd (drain a running pending))
  = snd (drain a running pending) /\
  length (snd (drain a running pending))
  = match pipeline a with
    | Some _ => length (filter is_latency pending)
    | None => 0
    end /\
  (forall p, In (recalculate_latency p) (snd (drain a running pending)) ->
     pipeline a = Some p).
Proof.
  rewrite drain_run. cbn [fst snd]. split; [|split; [|split]].
  - f_equal. induction pending as [|msg rest IH]; [reflexivity|].
    cbn [existsb forallb]. rewrite <- IH. now destruct (ends_loop msg).
  - destruct (pipeline a); [|reflexivity].
    induction (length (filter is_latency pending)) as [|n IH];
      [reflexivity|].
    cbn [repeat filter is_recalculate]. now rewrite IH.
  - destruct (pipeline a); [|reflexivity]. apply repeat_length.
  - intros p H. destruct (pipeline a) as [q|]; [|destruct H].
    apply repeat_spec in H. congruence.
Qed.

(** X17: the bus loop returns in the first round in which [self] holds a
    pipeline and a pending message ends the loop, the rounds before it
    being quiet; what is pending in later rounds is not read. *)
Theorem handle_bus_calls_returns (bus : option handle)
    (before later : list (GSTWebRTCApp * list message))
    (a : GSTWebRTCApp) (pending : list message) :
  forallb quiet before = true ->
  no_pipeline (a, pending) = false ->
  existsb ends_loop pending = true ->
  handle_bus_calls bus (before ++ (a, pending) :: later)
  = (Some (S (length before)),
     snd (handle_bus_calls bus (before ++ [(a, pending)]))).
Proof.
  intros Hq Hp He. revert bus Hq.
  induction before as [|[a0 pending0] before IH]; intros bus Hq.
  - cbn [app length handle_bus_calls]. unfold no_pipeline in Hp. cbn in Hp.
    destruct (pipeline a) as [p|]; [|discriminate].
    rewrite drain_run, He. reflexivity.
  - cbn [forallb] in Hq. apply andb_true_iff in Hq as [Hq0 Hq].
    unfold quiet in Hq0. cbn [snd] in Hq0.
    cbn [app length handle_bus_calls].
    destruct (pipeline a0) as [p0|].
    + rewrite drain_run, Hq0. cbn [andb]. rewrite (IH (Some p0) Hq).
      destruct (handle_bus_calls (Some p0) (before ++ [(a, pending)]))
        as [r l]. reflexivity.
    + destruct bus as [b|].
      * rewrite drain_run, Hq0. cbn [andb]. rewrite (IH (Some b) Hq).
        destruct (handle_bus_calls (Some b) (before ++ [(a, pending)]))
          as [r l]. reflexivity.
      * rewrite (IH None Hq).
        destruct (handle_bus_calls None (before ++ [(a, pending)]))
          as [r l]. reflexivity.
Qed.

Lemma handle_bus_calls_returns_witness :
  handle_bus_calls None
    ([(x264_app, [LATENCY]); (self x264_started, [LATENCY])]
     ++ (self x264_started, [LATENCY; ERROR; LATENCY])
        :: [(self x264_started, [LATENCY])])
  = (Some 3,
     [get_bus 0; recalculate_latency 0;
      get_bus 0; recalculate_latency 0; recalculate_latency 0]).
Proof.
  rewrite (handle_bus_calls_returns None
             [(x264_app, [LATENCY]); (self x264_started, [LATENCY])]
             [(self x264_started, [LATENCY])]
             (self x264_started) [LATENCY; ERROR; LATENCY]);
    reflexivity.
Defined.

(** X18: as long as [self] has held no pipeline the loop has no bus: it reads
    no message, calls nothing and does not return, whatever is pending. *)
Theorem handle_bus_calls_without_bus
    (rounds : list (GSTWebRTCApp * list message)) :
  forallb no_pipeline rounds = true ->
  handle_bus_calls None rounds = (None, []).
Proof.
  induction rounds as [|[a pending] rounds IH]; intros H; [reflexivity|].
  cbn [forallb] in H. apply andb_true_iff in H as [Ha H].
  unfold no_pipeline in Ha. cbn [fst] in Ha.
  cbn [handle_bus_calls]. destruct (pipeline a); [discriminate|].
  now rewrite (IH H).
Qed.

Lemma handle_bus_calls_without_bus_witness :
  handle_bus_calls None [(x264_app, [EOS]); (x264_app, [ERROR; LATENCY])]
  = (None, []).
Proof.
  apply (handle_bus_calls_without_bus
           [(x264_app, [EOS]); (x264_app, [ERROR; LATENCY])]).
  reflexivity.
Defined.

(** X19: the loop keeps the bus of a pipeline that [self] no longer holds:
    after [stop_pipeline] it still reads that bus, asks for no bus,
    recalculates no latency, and returns on a message that ends it. *)
Theorem handle_bus_calls_stale_bus (b : handle) (a : GSTWebRTCApp)
    (pending : list message)
    (later : list (GSTWebRTCApp * list message)) :
  no_pipeline (a, pending) = true ->
  handle_bus_calls (Some b) ((a, pending) :: later) =
  if existsb ends_loop pending then (Some 1, [])
  else (option_map S (fst (handle_bus_calls (Some b) later)),
        snd (handle_bus_calls (Some b) later)).
Proof.
  unfold no_pipeline. cbn [fst]. intros H.
  cbn [handle_bus_calls]. rewrite drain_run.
  destruct (pipeline a); [discriminate|].
  destruct (existsb ends_loop pending); cbn [andb negb]; [reflexivity|].
  now destruct (handle_bus_calls (Some b) later).
Qed.

Lemma handle_bus_calls_stale_bus_witness :
  handle_bus_calls (Some 0)
    ((stopped (self x264_started),
      [LATENCY; STATE_CHANGED true nick_paused nick_ready])
     :: [(self x264_started, [LATENCY])])
  = (Some 1, []).
Proof.
  apply (handle_bus_calls_stale_bus 0 (stopped (self x264_started))
           [LATENCY; STATE_CHANGED true nick_paused nick_ready]
           [(self x264_started, [LATENCY])]).
  reflexivity.
Defined.

(** ** The property monitor *)

Lemma state_nick_eqb_refl x : state_nick_eqb x x = true.
Proof. now destruct x. Qed.

Lemma differs_false_string x cached :
  differs String.eqb x cached = false -> cached = Some x.
Proof.
  destruct cached as [y|]; [|discriminate]. simpl. intros H.
  apply negb_false_iff, String.eqb_eq in H. now subst.
Qed.

(** A second round with the same readings logs nothing and caches
    nothing new. *)
Lemma check_property_settled a now c :
  check_property a now (fst (fst (check_property a now c)))
  = (fst (fst (check_property a now c)),
     snd (fst (check_property a now c)), []).
Proof.
  destruct c as [pc ic fs]. unfold check_property.
  destruct (pipeline a) as [p|]; [|reflexivity].
  destruct (webrtcbin a) as [w|]; [|reflexivity].
  cbn [peer_connection_state ice_connection_state fakesink_state].
  destruct (differs String.eqb (ice_now now) ic) eqn:E1;
    destruct (differs String.eqb (peer_now now) pc) eqn:E2;
    destruct (fakesink a) as [f|];
    try destruct (differs state_nick_eqb (sink_now now) fs) eqn:E3;
    cbn [fst snd peer_connection_state ice_connection_state fakesink_state];
    rewrite ?E1, ?E2, ?E3; unfold differs;
    rewrite ?String.eqb_refl, ?state_nick_eqb_refl; reflexivity.
Qed.

Lemma check_property_rounds_cons a now later c :
  check_property_rounds ((a, now) :: later) c =
  (fst (check_property_rounds later (fst (fst (check_property a now c)))),
   snd (check_property a now c)
   ++ snd (check_property_rounds later (fst (fst (check_property a now c))))).
Proof.
  cbn [check_property_rounds].
  destruct (check_property a now c) as [[c1 l1] log1]. cbn [fst snd].
  now destruct (check_property_rounds later c1).
Qed.

(** X20: [check_property] logs a state when it differs from the cached one
    and caches it: readings that stay the same for any number of rounds are
    logged in the first of them only. *)
Theorem check_property_logs_once (a : GSTWebRTCApp) (now : readings)
    (c : cache) (n : nat) :
  check_property_rounds (repeat (a, now) (S n)) c
  = (fst (fst (check_property a now c)), snd (check_property a now c)).
Proof.
  revert c; induction n as [|n IH]; intros c.
  - cbn [repeat]. rewrite check_property_rounds_cons.
    cbn [check_property_rounds fst snd]. now rewrite app_nil_r.
  - change (repeat (a, now) (S (S n)))
      with ((a, now) :: repeat (a, now) (S n)).
    rewrite check_property_rounds_cons, IH, check_property_settled.
    cbn [fst snd]. now rewrite app_nil_r.
Qed.

Lemma differs_true_string x cached :
  differs String.eqb x cached = true <-> cached <> Some x.
Proof.
  destruct cached as [y|]; simpl.
  - rewrite negb_true_iff, String.eqb_neq. split; congruence.
  - split; [discriminate | reflexivity].
Qed.

(** The lines of a round, by what they are about. *)
Lemma check_property_log a now c :
  pipeline a <> None -> webrtcbin a <> None ->
  exists log3,
    snd (check_property a now c) =
    ((if differs String.eqb (ice_now now) (ice_connection_state c)
      then [log_ice (ice_now now)] else [])
     ++ (if differs String.eqb (peer_now now) (peer_connection_state c)
         then [log_peer (peer_now now)] else [])
     ++ log3) /\
    filter is_log_sink log3 = log3 /\
    ice_connection_state (fst (fst (check_property a now c))) =
    (if differs String.eqb (ice_now now) (ice_connection_state c)
     then Some (ice_now now) else ice_connection_state c) /\
    peer_connection_state (fst (fst (check_property a now c))) =
    (if differs String.eqb (peer_now now) (peer_connection_state c)
     then Some (peer_now now) else peer_connection_state c).
Proof.
  intros Hp Hw. unfold check_property.
  destruct (pipeline a) as [p|]; [|contradiction].
  destruct (webrtcbin a) as [w|]; [|contradiction].
  destruct (differs String.eqb (ice_now now) (ice_connection_state c));
    destruct (differs String.eqb (peer_now now) (peer_connection_state c));
    destruct (fakesink a) as [f|];
    try destruct (differs state_nick_eqb (sink_now now) (fakesink_state c));
    eexists; cbn [fst snd peer_connection_state ice_connection_state];
    (split; [reflexivity|]); repeat split.
Qed.

(** X21: after a round in which [self] holds a pipeline and a transport
    element the cache holds the two connection states as read, whatever it
    held before; and each of the two is logged in the round exactly when it
    differs from the cached one. *)
Theorem check_property_caches_readings (a : GSTWebRTCApp) (now : readings)
    (c : cache) :
  pipeline a <> None -> webrtcbin a <> None ->
  ice_connection_state (fst (fst (check_property a now c)))
  = Some (ice_now now) /\
  peer_connection_state (fst (fst (check_property a now c)))
  = Some (peer_now now) /\
  (In (log_ice (ice_now now)) (snd (check_property a now c)) <->
   ice_connection_state c <> Some (ice_now now)) /\
  (In (log_peer (peer_now now)) (snd (check_property a now c)) <->
   peer_connection_state c <> Some (peer_now now)).
Proof.
  intros Hp Hw.
  destruct (check_property_log a now c Hp Hw) as (log3 & -> & H3 & -> & ->).
  assert (Hsink : forall l, In l log3 -> is_log_sink l = true).
  { intros l H. rewrite <- H3 in H. now apply filter_In in H. }
  rewrite <- !differs_true_string.
  destruct (differs String.eqb (ice_now now) (ice_connection_state c)) eqn:E1;
    destruct (differs String.eqb (peer_now now) (peer_connection_state c))
      eqn:E2;
    try apply differs_false_string in E1;
    try apply differs_false_string in E2;
    (split; [assumption || reflexivity|]);
    (split; [assumption || reflexivity|]);
    cbn [app In]; split; split; try discriminate; try reflexivity;
    try (intros _; tauto);
    intros H; repeat (destruct H as [H|H]; try discriminate);
    apply Hsink in H; discriminate.
Qed.

Lemma check_property_caches_readings_witness :
  ice_connection_state
    (fst (fst (check_property (self x264_started) readings_new cache_init)))
  = Some (ice_now readings_new) /\
  peer_connection_state
    (fst (fst (check_property (self x264_started) readings_new cache_init)))
  = Some (peer_now readings_new) /\
  (In (log_ice (ice_now readings_new))
      (snd (check_property (self x264_started) readings_new cache_init)) <->
   ice_connection_state cache_init <> Some (ice_now readings_new)) /\
  (In (log_peer (peer_now readings_new))
      (snd (check_property (self x264_started) readings_new cache_init)) <->
   peer_connection_state cache_init <> Some (peer_now readings_new)).
Proof.
  apply (check_property_caches_readings (self x264_started) readings_new
           cache_init); discriminate.
Defined.

(** X22: a controller made by [__init__] never holds a sink, whatever is
    asked of it: the pad handler keeps the sink it makes to itself.  So
    [check_property] never polls a sink, logs no line about one, and leaves
    [fakesink_state] as it is. *)
Theorem sink_never_polled (rs : list (Engine * request))
    (stun turn : option (list text)) (enc : option text) (now : readings)
    (c : cache) :
  filter is_get_state
    (snd (fst (check_property
                 (self (fst (run rs (boot (new_self stun turn enc)))))
                 now c))) = [] /\
  filter is_log_sink
    (snd (check_property
            (self (fst (run rs (boot (new_self stun turn enc))))) now c))
  = [] /\
  fakesink_state
    (fst (fst (check_property
                 (self (fst (run rs (boot (new_self stun turn enc)))))
                 now c)))
  = fakesink_state c.
Proof.
  assert (H : fakesink (self (fst (run rs (boot (new_self stun turn enc)))))
              = None) by (now apply run_keeps_no_sink).
  unfold check_property. rewrite H.
  destruct (pipeline _); [|now repeat split].
  destruct (webrtcbin _); [|now repeat split].
  destruct (differs String.eqb (ice_now now) (ice_connection_state c));
    destruct (differs String.eqb (peer_now now) (peer_connection_state c));
    now repeat split.
Qed.
